(** * XPLORER window orchestration: a shallow embedding of
      [src/main/window/WindowManager.ts]

    The module keeps three process-wide variables ([currentUIStyle],
    [closeToTrayEnabled], [onTrayVisibilityUpdate]) and one [WindowManager]
    object holding a [Map<string, BrowserWindow>] and a reference to the
    backend bridge.  Everything runs on Electron's single event loop, so a
    handler is a function from the state before it to the state after it.

    The embedding threads one [State] through a small state-and-exception
    monad.  Calls into Electron are recorded, in program order, in a [trace];
    the part of a native window that later behaviour is stated about (visible
    or not, background, the armed [once] handler, how far its page load has
    come) is kept in the registry entry of that window, so a window is known
    by the key it is registered under.

    [createWindow] is an [async] method with one [await], on the page load.
    It is embedded in two parts: what runs before the [await]
    ([createWindow]) and what runs when the load has resolved
    ([createWindow_afterLoad]); a load that is rejected ends the method
    there.  Screen coordinates are JavaScript numbers, hence binary64 floats.

    Left out: the channels 'window:getId', 'window:minimize' and
    'window:maximize', which neither read nor change anything modelled here
    ('window:close' is a close request, [closeRequest]); the size, frame and
    web preferences given to the [BrowserWindow] constructor. *)

From Stdlib Require Import String Ascii List ZArith Bool Arith Lia PrimFloat.
Import ListNotations.
Local Open Scope string_scope.
Local Open Scope list_scope.

Set Implicit Arguments.

(** ** Data model *)

Definition WindowId := string.

(** [let currentUIStyle: 'classic' | 'glass'] *)
Inductive UIStyle : Type := classic | glass.

Definition UIStyle_eqb (a b : UIStyle) : bool :=
  match a, b with
  | classic, classic | glass, glass => true
  | _, _ => false
  end.

Definition UIStyle_name (s : UIStyle) : string :=
  match s with classic => "classic" | glass => "glass" end.

(** [export interface TabData] *)
Record TabData : Type := mkTabData {
  tab_id : string;
  path : string;
  title : string;
  history : list string;
  historyIndex : Z
}.

(** A backend event is an opaque payload for this layer. *)
Definition BackendEvent := string.

(** What [getBounds()] answers. *)
Record Rectangle : Type := mkRectangle {
  rect_x : Z; rect_y : Z; rect_width : Z; rect_height : Z
}.

(** The four channels on which the main process talks to a renderer
    ([webContents.send]).  There is no other channel in the file. *)
Inductive Message : Type :=
| TabReceive (tab : TabData)          (* 'tab:receive' *)
| TabDropIndicator (show : bool)      (* 'tab:dropIndicator' *)
| TabInitWithData (tab : TabData)     (* 'tab:initWithData' *)
| XpEvent (event : BackendEvent).     (* 'xp:event' *)

(** Methods of a [BrowserWindow] (or of the close event) the file calls. *)
Inductive NativeCall : Type :=
| ShowWindow                          (* window.show() *)
| HideWindow                          (* window.hide() *)
| FocusWindow                         (* window.focus() *)
| PreventDefault                      (* event.preventDefault() *)
| Send (m : Message)
| SetBackgroundColor (color : string)
| SetBackgroundMaterial (material : string)
| LoadURL (url : string)
| LoadFile (file : string)
| OpenDevTools.

(** The callback handed to [setTrayVisibilityCallback] is foreign code: it is
    known by a tag, and each invocation is recorded together with what the
    callback finds when it runs: the registered ids and whether each window is
    visible. *)
Definition TrayCallback := nat.
Definition Snapshot := list (WindowId * bool).

(** One entry of the trace. *)
Inductive Obs : Type :=
| Constructed (id : WindowId)            (* new BrowserWindow({..., show: false}) *)
| Subscribed                             (* zmqBridge.onEvent(...) *)
| Call (id : WindowId) (c : NativeCall)  (* a method call on window [id] *)
| TimerSet (id : WindowId)               (* setTimeout(..., 100) *)
| StyleStored (s : UIStyle)              (* currentUIStyle = style *)
| TrayVisibilityUpdate (cb : TrayCallback) (found : Snapshot)
| ReadyToShow (id : WindowId)            (* signal: 'ready-to-show' *)
| Closed (id : WindowId).                (* signal: 'closed' *)

(** How far the [await] of [createWindow] on the page load of a window has
    come.  The 'close', 'closed' and 'show' handlers are registered after it,
    so a window has them exactly when its load has resolved. *)
Inductive LoadState : Type :=
| Loading      (* loadURL / loadFile called, promise pending *)
| Loaded       (* promise resolved: the rest of createWindow has run *)
| LoadFailed.  (* promise rejected: createWindow ended there *)

(** The state of one native window, as far as this file sets it. *)
Record BrowserWindow : Type := mkBrowserWindow {
  opt_x : option float;               (* x: options.x *)
  opt_y : option float;               (* y: options.y *)
  transparent : bool;
  backgroundColor : string;
  backgroundMaterial : option string; (* None until setBackgroundMaterial runs *)
  visible : bool;                     (* show: false at construction *)
  readyPending : bool;                (* the once('ready-to-show') handler is armed *)
  tabData : option TabData;           (* options.tabData, captured by that handler *)
  closing : bool;                     (* a close request went through *)
  loadState : LoadState;
  destroyed : bool                    (* destroyed while still registered *)
}.

(** The closure [createWindow] hands to the bridge:
    [(event) => this.windows.forEach(win => win.webContents.send('xp:event', event))]. *)
Inductive EventCallback : Type := ForwardToWindows.

Record State : Type := mkState {
  windows : list (WindowId * BrowserWindow); (* this.windows, in insertion order *)
  zmqBridge : list EventCallback;            (* callbacks the bridge holds *)
  currentUIStyle : UIStyle;
  closeToTrayEnabled : bool;
  onTrayVisibilityUpdate : option TrayCallback;
  timers : list (WindowId * TabData);         (* pending setTimeout callbacks *)
  uuids : nat;                                (* calls to uuidv4 so far *)
  console : list string;
  trace : list Obs
}.

(** What the code reads from its surroundings. *)
Record Env : Type := mkEnv {
  isWin32 : bool;                    (* process.platform === 'win32' *)
  shouldUseDarkColors : bool;        (* nativeTheme.shouldUseDarkColors *)
  hasSetBackgroundMaterial : bool;   (* typeof window.setBackgroundMaterial === 'function' *)
  development : bool;                (* process.env.NODE_ENV === 'development' *)
  uuidv4 : nat -> WindowId;          (* the n-th identifier uuidv4() returns *)
  nativeBounds : WindowId -> Rectangle;        (* what getBounds() reports *)
  nativeThrows : WindowId -> NativeCall -> bool (* a style call that throws *)
}.

(** Module initialisation and [new WindowManager(zmqBridge)]. *)
Definition initial : State :=
  {| windows := []; zmqBridge := []; currentUIStyle := classic;
     closeToTrayEnabled := false; onTrayVisibilityUpdate := None;
     timers := []; uuids := 0; console := []; trace := [] |}.

(** ** [Map<string, V>]: insertion ordered, one entry per key *)

Section JsMap.
Variable V : Type.

Fixpoint map_get (k : string) (m : list (string * V)) : option V :=
  match m with
  | [] => None
  | (k', v) :: m' => if String.eqb k k' then Some v else map_get k m'
  end.

(** [set] keeps the position of a key that is present and appends a new one. *)
Fixpoint map_set (k : string) (v : V) (m : list (string * V)) : list (string * V) :=
  match m with
  | [] => [(k, v)]
  | (k', v') :: m' =>
      if String.eqb k k' then (k', v) :: m' else (k', v') :: map_set k v m'
  end.

Fixpoint map_delete (k : string) (m : list (string * V)) : list (string * V) :=
  match m with
  | [] => []
  | (k', v') :: m' =>
      if String.eqb k k' then map_delete k m' else (k', v') :: map_delete k m'
  end.

(** A method call on the object stored under [k]: the entry stays in place. *)
Fixpoint map_adjust (f : V -> V) (k : string) (m : list (string * V)) : list (string * V) :=
  match m with
  | [] => []
  | (k', v') :: m' =>
      if String.eqb k k' then (k', f v') :: m' else (k', v') :: map_adjust f k m'
  end.

Definition map_keys (m : list (string * V)) : list string := map fst m.
Definition map_values (m : list (string * V)) : list V := map snd m.
Definition map_size (m : list (string * V)) : nat := length m.
End JsMap.

(** ** State updates *)

Definition set_windows (ws : list (WindowId * BrowserWindow)) (st : State) : State :=
  {| windows := ws; zmqBridge := zmqBridge st; currentUIStyle := currentUIStyle st;
     closeToTrayEnabled := closeToTrayEnabled st;
     onTrayVisibilityUpdate := onTrayVisibilityUpdate st;
     timers := timers st; uuids := uuids st; console := console st; trace := trace st |}.

Definition set_zmqBridge (b : list EventCallback) (st : State) : State :=
  {| windows := windows st; zmqBridge := b; currentUIStyle := currentUIStyle st;
     closeToTrayEnabled := closeToTrayEnabled st;
     onTrayVisibilityUpdate := onTrayVisibilityUpdate st;
     timers := timers st; uuids := uuids st; console := console st; trace := trace st |}.

Definition set_currentUIStyle (s : UIStyle) (st : State) : State :=
  {| windows := windows st; zmqBridge := zmqBridge st; currentUIStyle := s;
     closeToTrayEnabled := closeToTrayEnabled st;
     onTrayVisibilityUpdate := onTrayVisibilityUpdate st;
     timers := timers st; uuids := uuids st; console := console st; trace := trace st |}.

Definition set_closeToTrayEnabled (b : bool) (st : State) : State :=
  {| windows := windows st; zmqBridge := zmqBridge st; currentUIStyle := currentUIStyle st;
     closeToTrayEnabled := b;
     onTrayVisibilityUpdate := onTrayVisibilityUpdate st;
     timers := timers st; uuids := uuids st; console := console st; trace := trace st |}.

Definition set_onTrayVisibilityUpdate (cb : option TrayCallback) (st : State) : State :=
  {| windows := windows st; zmqBridge := zmqBridge st; currentUIStyle := currentUIStyle st;
     closeToTrayEnabled := closeToTrayEnabled st;
     onTrayVisibilityUpdate := cb;
     timers := timers st; uuids := uuids st; console := console st; trace := trace st |}.

Definition set_timers (ts : list (WindowId * TabData)) (st : State) : State :=
  {| windows := windows st; zmqBridge := zmqBridge st; currentUIStyle := currentUIStyle st;
     closeToTrayEnabled := closeToTrayEnabled st;
     onTrayVisibilityUpdate := onTrayVisibilityUpdate st;
     timers := ts; uuids := uuids st; console := console st; trace := trace st |}.

Definition set_uuids (n : nat) (st : State) : State :=
  {| windows := windows st; zmqBridge := zmqBridge st; currentUIStyle := currentUIStyle st;
     closeToTrayEnabled := closeToTrayEnabled st;
     onTrayVisibilityUpdate := onTrayVisibilityUpdate st;
     timers := timers st; uuids := n; console := console st; trace := trace st |}.

Definition set_console (c : list string) (st : State) : State :=
  {| windows := windows st; zmqBridge := zmqBridge st; currentUIStyle := currentUIStyle st;
     closeToTrayEnabled := closeToTrayEnabled st;
     onTrayVisibilityUpdate := onTrayVisibilityUpdate st;
     timers := timers st; uuids := uuids st; console := c; trace := trace st |}.

Definition set_trace (t : list Obs) (st : State) : State :=
  {| windows := windows st; zmqBridge := zmqBridge st; currentUIStyle := currentUIStyle st;
     closeToTrayEnabled := closeToTrayEnabled st;
     onTrayVisibilityUpdate := onTrayVisibilityUpdate st;
     timers := timers st; uuids := uuids st; console := console st; trace := t |}.

Definition with_backgroundColor (c : string) (w : BrowserWindow) : BrowserWindow :=
  {| opt_x := opt_x w; opt_y := opt_y w; transparent := transparent w;
     backgroundColor := c; backgroundMaterial := backgroundMaterial w;
     visible := visible w; readyPending := readyPending w; tabData := tabData w;
     closing := closing w; loadState := loadState w; destroyed := destroyed w |}.

Definition with_backgroundMaterial (m : string) (w : BrowserWindow) : BrowserWindow :=
  {| opt_x := opt_x w; opt_y := opt_y w; transparent := transparent w;
     backgroundColor := backgroundColor w; backgroundMaterial := Some m;
     visible := visible w; readyPending := readyPending w; tabData := tabData w;
     closing := closing w; loadState := loadState w; destroyed := destroyed w |}.

Definition with_visible (b : bool) (w : BrowserWindow) : BrowserWindow :=
  {| opt_x := opt_x w; opt_y := opt_y w; transparent := transparent w;
     backgroundColor := backgroundColor w; backgroundMaterial := backgroundMaterial w;
     visible := b; readyPending := readyPending w; tabData := tabData w;
     closing := closing w; loadState := loadState w; destroyed := destroyed w |}.

Definition with_readyPending (b : bool) (w : BrowserWindow) : BrowserWindow :=
  {| opt_x := opt_x w; opt_y := opt_y w; transparent := transparent w;
     backgroundColor := backgroundColor w; backgroundMaterial := backgroundMaterial w;
     visible := visible w; readyPending := b; tabData := tabData w;
     closing := closing w; loadState := loadState w; destroyed := destroyed w |}.

Definition with_closing (b : bool) (w : BrowserWindow) : BrowserWindow :=
  {| opt_x := opt_x w; opt_y := opt_y w; transparent := transparent w;
     backgroundColor := backgroundColor w; backgroundMaterial := backgroundMaterial w;
     visible := visible w; readyPending := readyPending w; tabData := tabData w;
     closing := b; loadState := loadState w; destroyed := destroyed w |}.

Definition with_loadState (l : LoadState) (w : BrowserWindow) : BrowserWindow :=
  {| opt_x := opt_x w; opt_y := opt_y w; transparent := transparent w;
     backgroundColor := backgroundColor w; backgroundMaterial := backgroundMaterial w;
     visible := visible w; readyPending := readyPending w; tabData := tabData w;
     closing := closing w; loadState := l; destroyed := destroyed w |}.

Definition with_destroyed (b : bool) (w : BrowserWindow) : BrowserWindow :=
  {| opt_x := opt_x w; opt_y := opt_y w; transparent := transparent w;
     backgroundColor := backgroundColor w; backgroundMaterial := backgroundMaterial w;
     visible := visible w; readyPending := readyPending w; tabData := tabData w;
     closing := closing w; loadState := loadState w; destroyed := b |}.

(** The handlers registered after the [await] are in place. *)
Definition listening (w : BrowserWindow) : bool :=
  match loadState w with
  | Loaded => true
  | Loading | LoadFailed => false
  end.

(** ** Handlers as computations: state, and exceptions that keep the state *)

Inductive Outcome (A : Type) : Type :=
| Done (a : A) (st : State)
| Raised (err : string) (st : State).

Arguments Raised {A} err st.

Definition M (A : Type) : Type := State -> Outcome A.

Definition ret {A} (a : A) : M A := fun st => Done a st.

Definition bind {A B} (c : M A) (k : A -> M B) : M B :=
  fun st => match c st with
            | Done a st' => k a st'
            | Raised e st' => Raised e st'
            end.

Definition raise {A} (err : string) : M A := fun st => Raised err st.

(** [try { body } catch (error) { handler(error) }] *)
Definition tryCatch (body : M unit) (handler : string -> M unit) : M unit :=
  fun st => match body st with
            | Done a st' => Done a st'
            | Raised e st' => handler e st'
            end.

Definition gets {A} (f : State -> A) : M A := fun st => Done (f st) st.
Definition modify (f : State -> State) : M unit := fun st => Done tt (f st).

Declare Scope wm_scope.
Delimit Scope wm_scope with wm.
Notation "x <- c ;; k" := (bind c (fun x => k))
  (at level 61, c at next level, right associativity) : wm_scope.
Notation "c ;;; k" := (bind c (fun _ => k))
  (at level 61, right associativity) : wm_scope.
Local Open Scope wm_scope.

Definition outcome_state {A} (o : Outcome A) : State :=
  match o with Done _ st => st | Raised _ st => st end.

Definition emit (o : Obs) : M unit := modify (fun st => set_trace (trace st ++ [o]) st).
Definition consoleLog (s : string) : M unit :=
  modify (fun st => set_console (console st ++ [s]) st).

(** A method call on the window registered under [id]. *)
Definition native (id : WindowId) (c : NativeCall) (f : BrowserWindow -> BrowserWindow) : M unit :=
  emit (Call id c) ;;;
  modify (fun st => set_windows (map_adjust f id (windows st)) st).

(** The same for a call that the platform may answer with an exception. *)
Definition nativeMayThrow (env : Env) (id : WindowId) (c : NativeCall)
    (f : BrowserWindow -> BrowserWindow) : M unit :=
  emit (Call id c) ;;;
  if nativeThrows env id c then raise "native call failed"
  else modify (fun st => set_windows (map_adjust f id (windows st)) st).

Fixpoint forEach (ids : list WindowId) (body : WindowId -> M unit) : M unit :=
  match ids with
  | [] => ret tt
  | id :: rest => body id ;;; forEach rest body
  end.

(** [this.windows.forEach((window) => ...)] *)
Definition forEachWindow (body : WindowId -> M unit) : M unit :=
  ids <- gets (fun st => map_keys (windows st)) ;;
  forEach ids body.

(** ** The module-level setters *)

Definition setCloseToTrayEnabled (enabled : bool) : M unit :=
  modify (set_closeToTrayEnabled enabled).

Definition setTrayVisibilityCallback (callback : TrayCallback) : M unit :=
  modify (set_onTrayVisibilityUpdate (Some callback)).

(** [if (onTrayVisibilityUpdate) { onTrayVisibilityUpdate(); }] *)
Definition snapshot (st : State) : Snapshot :=
  map (fun e => (fst e, visible (snd e))) (windows st).

Definition notifyTray : M unit :=
  cb <- gets onTrayVisibilityUpdate ;;
  match cb with
  | Some c =>
      found <- gets snapshot ;;
      emit (TrayVisibilityUpdate c found)
  | None => ret tt
  end.

(** ** [applyWindowStyle] *)

Definition applyWindowStyle (env : Env) (id : WindowId) (style : UIStyle) : M unit :=
  if negb (isWin32 env) then ret tt
  else
    tryCatch
      (match style with
       | glass =>
           nativeMayThrow env id (SetBackgroundColor "#00000000")
                          (with_backgroundColor "#00000000") ;;;
           if hasSetBackgroundMaterial env then
             nativeMayThrow env id (SetBackgroundMaterial "acrylic")
                            (with_backgroundMaterial "acrylic") ;;;
             consoleLog "Applied acrylic background material for glass effect"
           else
             consoleLog "setBackgroundMaterial not available - using CSS-only glass effect"
       | classic =>
           nativeMayThrow env id (SetBackgroundColor "#00000001")
                          (with_backgroundColor "#00000001") ;;;
           if hasSetBackgroundMaterial env then
             nativeMayThrow env id (SetBackgroundMaterial "none")
                            (with_backgroundMaterial "none")
           else ret tt
       end)
      (fun error => consoleLog ("Failed to apply window style: " ++ error)).

(** ** The handlers [createWindow] attaches to a window *)

(** [window.on('show', ...)] *)
Definition onShow (id : WindowId) : M unit := notifyTray.

(** [window.show()]: the window becomes visible and its 'show' handler runs,
    if [createWindow] has come to register it. *)
Definition showWindow (id : WindowId) : M unit :=
  native id ShowWindow (with_visible true) ;;;
  w <- gets (fun st => map_get id (windows st)) ;;
  match w with
  | Some w' => if listening w' then onShow id else ret tt
  | None => ret tt
  end.

(** [window.once('ready-to-show', ...)].  The [setTimeout] callback is queued;
    all timers have the same delay, so they fire in the order they were set. *)
Definition onReadyToShow (id : WindowId) (seed : option TabData) : M unit :=
  showWindow id ;;;
  match seed with
  | Some tab =>
      emit (TimerSet id) ;;;
      modify (fun st => set_timers (timers st ++ [(id, tab)]) st)
  | None => ret tt
  end.

(** The body of that timer:
    [window.webContents.send('tab:initWithData', options.tabData)]. *)
Definition onTimer (id : WindowId) (tab : TabData) : M unit :=
  native id (Send (TabInitWithData tab)) (fun w => w).

(** [window.on('close', (event) => ...)]; the result is [event.defaultPrevented]. *)
Definition onClose (id : WindowId) : M bool :=
  enabled <- gets closeToTrayEnabled ;;
  size <- gets (fun st => map_size (windows st)) ;;
  if enabled && Nat.eqb size 1 then
    emit (Call id PreventDefault) ;;;
    native id HideWindow (with_visible false) ;;;
    notifyTray ;;;
    ret true
  else ret false.

(** [window.on('closed', ...)] *)
Definition onClosed (id : WindowId) : M unit :=
  modify (fun st => set_windows (map_delete id (windows st)) st) ;;;
  notifyTray.

(** ** The backend bridge *)

(** Modelled from the spec: [ZmqBridge] ([../ipc/ZmqBridge]) is not among the
    sources.  The spec calls the forwarding "callback-registration style" and
    has the bridge deliver every event it receives, in the order received:
    [onEvent] adds the callback it is given to those the bridge holds, and an
    event runs the callbacks held, oldest first. *)
Definition zmqBridge_onEvent (cb : EventCallback) : M unit :=
  emit Subscribed ;;;
  modify (fun st => set_zmqBridge (zmqBridge st ++ [cb]) st).

(** The callback of [createWindow], lines 200-204. *)
Definition runEventCallback (cb : EventCallback) (event : BackendEvent) : M unit :=
  match cb with
  | ForwardToWindows =>
      forEachWindow (fun id => native id (Send (XpEvent event)) (fun w => w))
  end.

Fixpoint runEventCallbacks (cbs : list EventCallback) (event : BackendEvent) : M unit :=
  match cbs with
  | [] => ret tt
  | cb :: rest => runEventCallback cb event ;;; runEventCallbacks rest event
  end.

(** Modelled from the spec: the bridge receiving one event from the backend
    (the emitting side of the absent [ZmqBridge]). *)
Definition zmqBridge_emit (event : BackendEvent) : M unit :=
  cbs <- gets zmqBridge ;;
  runEventCallbacks cbs event.

(** ** [createWindow] *)

Record CreateOptions : Type := mkCreateOptions {
  options_x : option float;
  options_y : option float;
  options_tabData : option TabData
}.

Definition noOptions : CreateOptions :=
  {| options_x := None; options_y := None; options_tabData := None |}.

(** [new BrowserWindow({...})].  Size, frame and web preferences are constants
    no handler reads; they are left out. *)
Definition newBrowserWindow (env : Env) (options : CreateOptions) : BrowserWindow :=
  {| opt_x := options_x options;
     opt_y := options_y options;
     transparent := isWin32 env;
     backgroundColor :=
       if isWin32 env then "#00000000"
       else if shouldUseDarkColors env then "#1e1e1e" else "#ffffff";
     backgroundMaterial := None;
     visible := false;
     readyPending := true;
     tabData := options_tabData options;
     closing := false;
     loadState := Loading;
     destroyed := false |}.

(** [createWindow(options)] up to its [await] (lines 154-212): the window is
    built, registered, its [once] handler armed, the bridge subscribed and the
    page load started.  The result is the key under which the new window is
    registered; it stands for the [BrowserWindow] the method will return. *)
Definition createWindow (env : Env) (options : CreateOptions) : M WindowId :=
  n <- gets uuids ;;
  modify (set_uuids (S n)) ;;;
  let windowId := uuidv4 env n in
  emit (Constructed windowId) ;;;
  modify (fun st =>
    set_windows (map_set windowId (newBrowserWindow env options) (windows st)) st) ;;;
  zmqBridge_onEvent ForwardToWindows ;;;
  (if development env then
     native windowId (LoadURL "http://localhost:5173") (fun w => w)
   else
     native windowId (LoadFile "../renderer/index.html") (fun w => w)) ;;;
  ret windowId.

(** [createWindow] from the point where the awaited load has resolved
    (lines 209-243): the developer tools in development, then the 'close',
    'closed' and 'show' handlers are registered. *)
Definition createWindow_afterLoad (env : Env) (windowId : WindowId) : M unit :=
  (if development env then native windowId OpenDevTools (fun w => w) else ret tt) ;;;
  modify (fun st => set_windows (map_adjust (with_loadState Loaded) windowId (windows st)) st).

Definition createMainWindow (env : Env) : M WindowId := createWindow env noOptions.

(** ** Queries of the class *)

(** [getMainWindow()] *)
Definition getMainWindow (st : State) : option BrowserWindow :=
  match map_values (windows st) with
  | [] => None
  | w :: _ => Some w
  end.

(** [getWindow(id)]: a [BrowserWindow] is an object, hence truthy, and
    [this.windows.get(id) || null] is the entry or [null]. *)
Definition getWindow (st : State) (id : WindowId) : option BrowserWindow :=
  map_get id (windows st).

(** ** The channels of [setupIpcHandlers] *)

(** 'window:createWithTab'.  The handler answers with Electron's own numeric
    [window.id], which nothing else in the file uses; the reply is left out. *)
Definition window_createWithTab (env : Env) (tab : TabData) (screenX screenY : float) : M unit :=
  createWindow env {| options_x := Some (screenX - 100)%float;
                      options_y := Some (screenY - 20)%float;
                      options_tabData := Some tab |} ;;;
  ret tt.


(** 'window:getBounds' *)
Definition window_getBounds (env : Env) (windowId : WindowId) : M (option Rectangle) :=
  w <- gets (fun st => map_get windowId (windows st)) ;;
  match w with
  | Some _ => ret (Some (nativeBounds env windowId))
  | None => ret None
  end.

(** 'window:transferTab' *)
Definition window_transferTab (targetWindowId : WindowId) (tab : TabData) : M unit :=
  targetWindow <- gets (fun st => map_get targetWindowId (windows st)) ;;
  match targetWindow with
  | Some _ => native targetWindowId (Send (TabReceive tab)) (fun w => w)
  | None => ret tt
  end.

(** 'window:showDropIndicator' *)
Definition window_showDropIndicator (targetWindowId : WindowId) (show : bool) : M unit :=
  targetWindow <- gets (fun st => map_get targetWindowId (windows st)) ;;
  match targetWindow with
  | Some _ => native targetWindowId (Send (TabDropIndicator show)) (fun w => w)
  | None => ret tt
  end.

(** 'window:focus' *)
Definition window_focus (windowId : WindowId) : M unit :=
  w <- gets (fun st => map_get windowId (windows st)) ;;
  match w with
  | Some _ => native windowId FocusWindow (fun w => w)
  | None => ret tt
  end.

(** 'window:setUIStyle' *)
Definition window_setUIStyle (env : Env) (style : UIStyle) : M unit :=
  previousStyle <- gets currentUIStyle ;;
  modify (set_currentUIStyle style) ;;;
  emit (StyleStored style) ;;;
  forEachWindow (fun id => applyWindowStyle env id style) ;;;
  if UIStyle_eqb previousStyle style then ret tt
  else consoleLog ("UI style changed from " ++ UIStyle_name previousStyle
                   ++ " to " ++ UIStyle_name style).

(** ** Signals from Electron and the event loop *)

(** The awaited page load of a window resolves: [createWindow] goes on. *)
Definition loadResolved (env : Env) (id : WindowId) : M unit :=
  w <- gets (fun st => map_get id (windows st)) ;;
  match w with
  | Some w' =>
      match loadState w' with
      | Loading => if destroyed w' then ret tt else createWindow_afterLoad env id
      | Loaded | LoadFailed => ret tt
      end
  | None => ret tt
  end.

(** The awaited page load of a window is rejected: the [await] throws,
    [createWindow] ends there and its promise is rejected; the handlers that
    come after the [await] are never registered. *)
Definition loadRejected (id : WindowId) : M unit :=
  w <- gets (fun st => map_get id (windows st)) ;;
  match w with
  | Some w' =>
      match loadState w' with
      | Loading =>
          modify (fun st =>
            set_windows (map_adjust (with_loadState LoadFailed) id (windows st)) st) ;;;
          raise "page load failed"
      | Loaded | LoadFailed => ret tt
      end
  | None => ret tt
  end.

(** A close request for a registered window ([window.close()], or the user
    closing it): the 'close' handler runs if [createWindow] has come to
    register it, and unless it prevented the default the window goes on to be
    destroyed.  A window that is destroyed already emits no event any more:
    nothing is modelled of a request to close it again. *)
Definition closeRequest (id : WindowId) : M unit :=
  w <- gets (fun st => map_get id (windows st)) ;;
  match w with
  | None => ret tt
  | Some w' =>
      if destroyed w' then ret tt
      else
        prevented <- (if listening w' then onClose id else ret false) ;;
        if prevented then ret tt
        else modify (fun st =>
               set_windows (map_adjust (with_closing true) id (windows st)) st)
  end.

(** The window finished closing: Electron emits 'closed'.  The handler that
    deletes the registry entry runs if it was registered; a window destroyed
    before that stays in the registry. *)
Definition closedSignal (id : WindowId) : M unit :=
  w <- gets (fun st => map_get id (windows st)) ;;
  match w with
  | Some w' =>
      if closing w' && negb (destroyed w') then
        emit (Closed id) ;;;
        if listening w' then onClosed id
        else modify (fun st =>
               set_windows (map_adjust (with_destroyed true) id (windows st)) st)
      else ret tt
  | None => ret tt
  end.

(** The content of a window is ready: the [once] handler runs if still armed. *)
Definition readyToShowSignal (id : WindowId) : M unit :=
  w <- gets (fun st => map_get id (windows st)) ;;
  match w with
  | Some w' =>
      if readyPending w' then
        emit (ReadyToShow id) ;;;
        modify (fun st =>
          set_windows (map_adjust (with_readyPending false) id (windows st)) st) ;;;
        onReadyToShow id (tabData w')
      else ret tt
  | None => ret tt
  end.

(** The oldest pending timer fires. *)
Definition timerFires : M unit :=
  ts <- gets timers ;;
  match ts with
  | [] => ret tt
  | (id, tab) :: rest => modify (set_timers rest) ;;; onTimer id tab
  end.

(** [closeAllWindows()] *)
Definition closeAllWindows : M unit := forEachWindow closeRequest.

(** No registered window has been destroyed. *)
Definition allLive (m : list (WindowId * BrowserWindow)) : bool :=
  forallb (fun w => negb (destroyed w)) (map_values m).

(** Everything that can happen to the running process. *)
Inductive Input : Type :=
| CreateMainWindow
| IpcCreateWithTab (tab : TabData) (screenX screenY : float)
| IpcTransferTab (targetWindowId : WindowId) (tab : TabData)
| IpcShowDropIndicator (targetWindowId : WindowId) (show : bool)
| IpcFocus (windowId : WindowId)
| IpcSetUIStyle (style : UIStyle)
| SetCloseToTrayEnabled (enabled : bool)
| SetTrayVisibilityCallback (callback : TrayCallback)
| CloseAllWindows
| CloseRequest (id : WindowId)
| ClosedSignal (id : WindowId)
| ReadyToShowSignal (id : WindowId)
| TimerFires
| Backend (event : BackendEvent)
| LoadResolved (id : WindowId)
| LoadRejected (id : WindowId).

Definition handle (env : Env) (i : Input) : M unit :=
  match i with
  | CreateMainWindow => createMainWindow env ;;; ret tt
  | IpcCreateWithTab tab sx sy => window_createWithTab env tab sx sy
  | IpcTransferTab target tab => window_transferTab target tab
  | IpcShowDropIndicator target show => window_showDropIndicator target show
  | IpcFocus id => window_focus id
  | IpcSetUIStyle style => window_setUIStyle env style
  | SetCloseToTrayEnabled enabled => setCloseToTrayEnabled enabled
  | SetTrayVisibilityCallback cb => setTrayVisibilityCallback cb
  | CloseAllWindows => closeAllWindows
  | CloseRequest id => closeRequest id
  | ClosedSignal id => closedSignal id
  | ReadyToShowSignal id => readyToShowSignal id
  | TimerFires => timerFires
  | Backend event => zmqBridge_emit event
  | LoadResolved id => loadResolved env id
  | LoadRejected id => loadRejected id
  end.

(** The event loop: an exception of one handler ends that handler only. *)
Fixpoint run (env : Env) (inputs : list Input) (st : State) : State :=
  match inputs with
  | [] => st
  | i :: rest => run env rest (outcome_state (handle env i st))
  end.

Definition exec {A} (c : M A) (st : State) : State := outcome_state (c st).

(** ** Reading the trace *)

Definition sentTo (id : WindowId) (o : Obs) : list Message :=
  match o with
  | Call id' (Send m) => if String.eqb id id' then [m] else []
  | _ => []
  end.

(** What the renderer of window [id] was sent, oldest first. *)
Definition inbox (id : WindowId) (tr : list Obs) : list Message :=
  flat_map (sentTo id) tr.

Definition xpEvents (ms : list Message) : list BackendEvent :=
  flat_map (fun m => match m with XpEvent e => [e] | _ => [] end) ms.

(** The backend events window [id] received, oldest first. *)
Definition received (id : WindowId) (tr : list Obs) : list BackendEvent :=
  xpEvents (inbox id tr).

(** One round of forwarding: every registered window is sent the event once. *)
Definition forwardRound (event : BackendEvent) (st : State) : list Obs :=
  map (fun id => Call id (Send (XpEvent event))) (map_keys (windows st)).

(** Every occurrence of [o] in [tr] has an occurrence of [r] before it. *)
Definition precededBy (r o : Obs) (tr : list Obs) : Prop :=
  forall pre post, tr = pre ++ o :: post -> In r pre.

(** The calls that must wait for the window's 'ready-to-show': showing it,
    and seeding its renderer with a tab. *)
Definition needsReady (o : Obs) : option WindowId :=
  match o with
  | Call id ShowWindow => Some id
  | Call id (Send (TabInitWithData _)) => Some id
  | _ => None
  end.

(** In [tr], each such call on a window comes after that window's signal. *)
Definition readyFirst (tr : list Obs) : Prop :=
  forall pre o post id,
    tr = pre ++ o :: post -> needsReady o = Some id -> In (ReadyToShow id) pre.

(** Every pending seeding timer belongs to a window that signalled. *)
Definition timersReady (st : State) : Prop :=
  forall id tab, In (id, tab) (timers st) -> In (ReadyToShow id) (trace st).

Definition readyInv (st : State) : Prop := readyFirst (trace st) /\ timersReady st.

(** The same once window [id] has signalled. *)
Definition readyInvAt (id : WindowId) (st : State) : Prop :=
  readyInv st /\ In (ReadyToShow id) (trace st).

(** A handler that keeps [P], whether it returns or raises. *)
Definition preserves {A} (P : State -> Prop) (c : M A) : Prop :=
  forall st, P st -> P (exec c st).

(** ** The style a call of [applyWindowStyle] asks for *)

Definition styleColor (style : UIStyle) : string :=
  match style with glass => "#00000000" | classic => "#00000001" end.

Definition styleMaterial (style : UIStyle) : string :=
  match style with glass => "acrylic" | classic => "none" end.

(** The native calls one [applyWindowStyle] makes, in order. *)
Definition styleCalls (env : Env) (style : UIStyle) (id : WindowId) : list Obs :=
  if negb (isWin32 env) then []
  else
    Call id (SetBackgroundColor (styleColor style)) ::
    (if nativeThrows env id (SetBackgroundColor (styleColor style)) then []
     else if hasSetBackgroundMaterial env
          then [Call id (SetBackgroundMaterial (styleMaterial style))]
          else []).

(** What one [applyWindowStyle] leaves of the window it is applied to. *)
Definition styledBy (env : Env) (style : UIStyle) (id : WindowId)
    (w : BrowserWindow) : BrowserWindow :=
  if negb (isWin32 env) then w
  else if nativeThrows env id (SetBackgroundColor (styleColor style)) then w
  else
    let w1 := with_backgroundColor (styleColor style) w in
    if hasSetBackgroundMaterial env then
      if nativeThrows env id (SetBackgroundMaterial (styleMaterial style)) then w1
      else with_backgroundMaterial (styleMaterial style) w1
    else w1.

(** [applyWindowStyle] applied to the windows [ids], one after the other. *)
Definition applyAll (env : Env) (style : UIStyle) (ids : list WindowId)
    (ws : list (WindowId * BrowserWindow)) : list (WindowId * BrowserWindow) :=
  fold_left (fun acc id => map_adjust (styledBy env style id) id acc) ids ws.

(** No style call on window [id] throws. *)
Definition styleCallsSucceed (env : Env) (style : UIStyle) (id : WindowId) : bool :=
  negb (nativeThrows env id (SetBackgroundColor (styleColor style)))
  && negb (nativeThrows env id (SetBackgroundMaterial (styleMaterial style))).

(** ** The registry seen through its two mutators *)

(** [create] is [createWindow]; [remove] is the 'closed' handler of a window. *)
Inductive RegistryOp : Type :=
| OpCreate (options : CreateOptions)
| OpRemove (id : WindowId).

Definition applyOp (env : Env) (op : RegistryOp) : M unit :=
  match op with
  | OpCreate options => createWindow env options ;;; ret tt
  | OpRemove id => onClosed id
  end.

Fixpoint applyOps (env : Env) (ops : list RegistryOp) (st : State) : State :=
  match ops with
  | [] => st
  | op :: rest => applyOps env rest (exec (applyOp env op) st)
  end.

(** What happened to the registry, told with the ids that were issued:
    the [k]-th call of [createWindow] draws [uuidv4 env k]. *)
Inductive RegistryEvent : Type :=
| Created (id : WindowId)
| Removed (id : WindowId).

Fixpoint registryHistory (env : Env) (n : nat) (ops : list RegistryOp) : list RegistryEvent :=
  match ops with
  | [] => []
  | OpCreate _ :: rest => Created (uuidv4 env n) :: registryHistory env (S n) rest
  | OpRemove id :: rest => Removed id :: registryHistory env n rest
  end.

Definition issued (h : list RegistryEvent) : list WindowId :=
  flat_map (fun e => match e with Created id => [id] | Removed _ => [] end) h.

Definition removedIn (id : WindowId) (h : list RegistryEvent) : bool :=
  existsb (fun e => match e with Removed id' => String.eqb id id' | Created _ => false end) h.

(** The ids created and not removed afterwards, in the order of creation. *)
Fixpoint survivors (h : list RegistryEvent) : list WindowId :=
  match h with
  | [] => []
  | Created id :: rest =>
      if removedIn id rest then survivors rest else id :: survivors rest
  | Removed _ :: rest => survivors rest
  end.

(** [id] was created at some point of [h] and not removed after that. *)
Definition createdNotRemoved (h : list RegistryEvent) (id : WindowId) : Prop :=
  exists before after,
    h = before ++ Created id :: after /\ ~ In (Removed id) after.

(** The uuid library's contract: no value is returned twice. *)
Definition uuidsDistinct (env : Env) : Prop :=
  forall i j, uuidv4 env i = uuidv4 env j -> i = j.

(** ** Concrete surroundings for the examples *)

Fixpoint tally (n : nat) : string :=
  match n with
  | O => ""
  | S k => String "i"%char (tally k)
  end.

(** Identifiers "w", "wi", "wii", ... *)
Definition sampleUuid (n : nat) : WindowId := String "w"%char (tally n).

Definition noBounds : Rectangle :=
  {| rect_x := 0; rect_y := 0; rect_width := 1400; rect_height := 900 |}.

(** Windows 11 with [setBackgroundMaterial], production build, no failing call. *)
Definition win11 : Env :=
  {| isWin32 := true; shouldUseDarkColors := true; hasSetBackgroundMaterial := true;
     development := false; uuidv4 := sampleUuid;
     nativeBounds := fun _ => noBounds;
     nativeThrows := fun _ _ => false |}.

(** Windows on which every style call throws. *)
Definition win32Failing : Env :=
  {| isWin32 := true; shouldUseDarkColors := false; hasSetBackgroundMaterial := true;
     development := false; uuidv4 := sampleUuid;
     nativeBounds := fun _ => noBounds;
     nativeThrows := fun _ _ => true |}.

Definition sampleTab : TabData :=
  {| tab_id := "t1"; path := "C:/Users"; title := "Users";
     history := ["C:/"; "C:/Users"]; historyIndex := 1 |}.

(** States used as concrete inputs. *)

(** One window, a tray callback, close-to-tray on. *)
Definition oneWindowTray : State :=
  run win11 [SetTrayVisibilityCallback 7; SetCloseToTrayEnabled true; CreateMainWindow] initial.

(** The same once the page of the window has loaded. *)
Definition oneWindowTrayLoaded : State :=
  run win11 [SetTrayVisibilityCallback 7; SetCloseToTrayEnabled true; CreateMainWindow;
             LoadResolved "w"] initial.

(** Close-to-tray on, one loaded window, no tray callback. *)
Definition oneWindowNoCallback : State :=
  run win11 [SetCloseToTrayEnabled true; CreateMainWindow; LoadResolved "w"] initial.


(** One window, then the style is set to glass, then a second window. *)
Definition glassThenCreate : State :=
  run win11 [CreateMainWindow; IpcSetUIStyle glass; CreateMainWindow] initial.

(** Two windows, then one backend event. *)
Definition twoWindowsOneEvent : State :=
  run win11 [CreateMainWindow; CreateMainWindow; Backend "E1"] initial.

(** Two windows on the platform where style calls throw. *)
Definition twoWindowsFailing : State :=
  run win32Failing [CreateMainWindow; CreateMainWindow] initial.

(** Two windows, the first closed, a third one, and a removal that misses. *)
Definition sampleOps : list RegistryOp :=
  [OpCreate noOptions;
   OpCreate {| options_x := Some 400%float; options_y := Some 280%float;
               options_tabData := Some sampleTab |};
   OpRemove "w"; OpCreate noOptions; OpRemove "zz"].

(** ** Inputs by what they may write *)

(** The inputs that call [createWindow]. *)
Definition createsWindow (i : Input) : bool :=
  match i with
  | CreateMainWindow | IpcCreateWithTab _ _ _ => true
  | _ => false
  end.

(** The inputs that add or delete a registry entry. *)
Definition registryInput (i : Input) : bool :=
  match i with
  | CreateMainWindow | IpcCreateWithTab _ _ _ | ClosedSignal _ => true
  | _ => false
  end.

(** The value a module-level variable has after [inputs], given the value it
    had before: the argument of the last call of its setter. *)
Fixpoint lastStyle (inputs : list Input) (s : UIStyle) : UIStyle :=
  match inputs with
  | [] => s
  | IpcSetUIStyle s' :: rest => lastStyle rest s'
  | _ :: rest => lastStyle rest s
  end.

Fixpoint lastEnabled (inputs : list Input) (b : bool) : bool :=
  match inputs with
  | [] => b
  | SetCloseToTrayEnabled b' :: rest => lastEnabled rest b'
  | _ :: rest => lastEnabled rest b
  end.

Fixpoint lastCallback (inputs : list Input) (cb : option TrayCallback) : option TrayCallback :=
  match inputs with
  | [] => cb
  | SetTrayVisibilityCallback cb' :: rest => lastCallback rest (Some cb')
  | _ :: rest => lastCallback rest cb
  end.

(** What a close request that goes through leaves of a window: nothing
    changes for a window that is destroyed already. *)
Definition closeMark (w : BrowserWindow) : BrowserWindow :=
  if destroyed w then w else with_closing true w.

(** What [notifyTray] adds to the trace in [st]. *)
Definition trayNotice (st : State) : list Obs :=
  match onTrayVisibilityUpdate st with
  | Some cb => [TrayVisibilityUpdate cb (snapshot st)]
  | None => []
  end.

(** The console lines of one [applyWindowStyle]. *)
Definition styleLog (env : Env) (style : UIStyle) (id : WindowId) : list string :=
  if negb (isWin32 env) then []
  else if nativeThrows env id (SetBackgroundColor (styleColor style))
  then ["Failed to apply window style: native call failed"]
  else if hasSetBackgroundMaterial env then
    if nativeThrows env id (SetBackgroundMaterial (styleMaterial style))
    then ["Failed to apply window style: native call failed"]
    else match style with
         | glass => ["Applied acrylic background material for glass effect"]
         | classic => []
         end
  else match style with
       | glass => ["setBackgroundMaterial not available - using CSS-only glass effect"]
       | classic => []
       end.

(** The line ['window:setUIStyle'] logs when the style changes. *)
Definition styleChangeLog (previous style : UIStyle) : list string :=
  if UIStyle_eqb previous style then []
  else [("UI style changed from " ++ UIStyle_name previous
          ++ " to " ++ UIStyle_name style)%string].

(** The tray callbacks invoked in [tr]. *)
Definition trayCalls (tr : list Obs) : list TrayCallback :=
  flat_map (fun o => match o with TrayVisibilityUpdate cb _ => [cb] | _ => [] end) tr.

(** A platform other than Windows. *)
Definition linuxEnv : Env :=
  {| isWin32 := false; shouldUseDarkColors := true; hasSetBackgroundMaterial := false;
     development := false; uuidv4 := sampleUuid;
     nativeBounds := fun _ => noBounds;
     nativeThrows := fun _ _ => false |}.

(** Windows where the style calls on window "w" throw and the others do not. *)
Definition win32FirstFails : Env :=
  {| isWin32 := true; shouldUseDarkColors := false; hasSetBackgroundMaterial := true;
     development := false; uuidv4 := sampleUuid;
     nativeBounds := fun _ => noBounds;
     nativeThrows := fun id _ => String.eqb id "w" |}.

(** Two windows "w" and "wi", nothing else done. *)
Definition twoWindows : State :=
  run win11 [CreateMainWindow; CreateMainWindow] initial.

(** ** Where a message to a renderer comes from *)

(** Some 'window:createWithTab' in [inputs] carried [tab]. *)
Definition seededIn (inputs : list Input) (tab : TabData) : Prop :=
  exists screenX screenY, In (IpcCreateWithTab tab screenX screenY) inputs.

(** The input that accounts for message [m] to window [id]. *)
Definition sourceOf (inputs : list Input) (id : WindowId) (m : Message) : Prop :=
  match m with
  | TabReceive tab => In (IpcTransferTab id tab) inputs
  | TabDropIndicator show => In (IpcShowDropIndicator id show) inputs
  | TabInitWithData tab => seededIn inputs tab
  | XpEvent event => In (Backend event) inputs
  end.

(** Every message sent, every seed a window carries and every pending timer
    is accounted for by [inputs]. *)
Definition accounted (inputs : list Input) (st : State) : Prop :=
  (forall id m, In (Call id (Send m)) (trace st) -> sourceOf inputs id m) /\
  (forall id w tab, In (id, w) (windows st) -> tabData w = Some tab -> seededIn inputs tab) /\
  (forall id tab, In (id, tab) (timers st) -> seededIn inputs tab).

(** * Properties *)

(** ** The map *)

Section JsMapFacts.
Variable V : Type.
Implicit Types (m : list (string * V)) (k : string).

Lemma map_keys_adjust (f : V -> V) k m :
  map_keys (map_adjust f k m) = map_keys m.
Proof.
  induction m as [|[k' v'] m IH]; simpl; [reflexivity|].
  destruct (String.eqb k k'); simpl; [reflexivity|].
  f_equal. exact IH.
Qed.

Lemma map_get_adjust (f : V -> V) k k' m :
  map_get k' (map_adjust f k m) =
  if String.eqb k' k then option_map f (map_get k' m) else map_get k' m.
Proof.
  induction m as [|[k0 v0] m IH]; simpl.
  - now destruct (String.eqb k' k).
  - destruct (String.eqb k k0) eqn:E; simpl.
    + apply String.eqb_eq in E; subst k0.
      destruct (String.eqb k' k); reflexivity.
    + destruct (String.eqb k' k0) eqn:E'.
      * apply String.eqb_eq in E'; subst k0.
        rewrite String.eqb_sym, E. reflexivity.
      * exact IH.
Qed.

Lemma map_get_None k m : map_get k m = None <-> ~ In k (map_keys m).
Proof.
  induction m as [|[k' v'] m IH]; simpl.
  - tauto.
  - destruct (String.eqb k k') eqn:E.
    + apply String.eqb_eq in E. split; [discriminate | intros H; elim H; auto].
    + apply String.eqb_neq in E. rewrite IH. unfold map_keys.
      split; [intros H [H'|H']; [congruence | auto] | auto].
Qed.

Lemma map_keys_set_fresh k v m :
  ~ In k (map_keys m) -> map_keys (map_set k v m) = map_keys m ++ [k].
Proof.
  induction m as [|[k' v'] m IH]; simpl; intros H; [reflexivity|].
  destruct (String.eqb k k') eqn:E.
  - apply String.eqb_eq in E. elim H; auto.
  - simpl. f_equal. apply IH. intros H'. apply H. now right.
Qed.

Lemma map_get_set_same k v m : map_get k (map_set k v m) = Some v.
Proof.
  induction m as [|[k' v'] m IH]; simpl.
  - now rewrite String.eqb_refl.
  - destruct (String.eqb k k') eqn:E; simpl; rewrite E; [reflexivity | exact IH].
Qed.

Lemma map_keys_delete k m :
  map_keys (map_delete k m) = filter (fun k' => negb (String.eqb k k')) (map_keys m).
Proof.
  induction m as [|[k' v'] m IH]; simpl; [reflexivity|].
  destruct (String.eqb k k'); simpl; [exact IH|].
  f_equal. exact IH.
Qed.

Lemma map_get_delete_same k m : map_get k (map_delete k m) = None.
Proof.
  apply map_get_None. rewrite map_keys_delete, filter_In.
  intros [_ H]. now rewrite String.eqb_refl in H.
Qed.

(** A map of size one that has [k] has nothing else. *)
Lemma map_singleton k v m :
  map_get k m = Some v -> map_size m = 1 -> m = [(k, v)].
Proof.
  destruct m as [|[k' v'] [|e m]]; simpl; try discriminate.
  destruct (String.eqb k k') eqn:E; [|discriminate].
  apply String.eqb_eq in E. intros H _. congruence.
Qed.
End JsMapFacts.

Section JsMapAdjust.
Variable V : Type.
Implicit Types (m : list (string * V)) (k : string) (f g : V -> V).

Lemma map_adjust_id k m : map_adjust (fun v => v) k m = m.
Proof.
  induction m as [|[k' v'] m IH]; simpl; [reflexivity|].
  destruct (String.eqb k k'); [reflexivity | now rewrite IH].
Qed.

Lemma map_adjust_twice f g k m :
  map_adjust g k (map_adjust f k m) = map_adjust (fun v => g (f v)) k m.
Proof.
  induction m as [|[k' v'] m IH]; simpl; [reflexivity|].
  destruct (String.eqb k k') eqn:E; simpl; rewrite E; [reflexivity | now rewrite IH].
Qed.
End JsMapAdjust.

Section JsMapSet.
Variable V : Type.
Implicit Types (m : list (string * V)) (k : string).

Lemma map_keys_set_present k v m :
  In k (map_keys m) -> map_keys (map_set k v m) = map_keys m.
Proof.
  induction m as [|[k' v'] m IH]; simpl; intros H; [contradiction|].
  destruct (String.eqb k k') eqn:E; simpl; [reflexivity|].
  f_equal. apply IH. destruct H as [H|H]; [|exact H].
  apply String.eqb_neq in E. congruence.
Qed.

Lemma map_keys_set_NoDup k v m :
  NoDup (map_keys m) -> NoDup (map_keys (map_set k v m)).
Proof.
  intros H. destruct (in_dec string_dec k (map_keys m)) as [i|n].
  - now rewrite map_keys_set_present.
  - rewrite map_keys_set_fresh by assumption.
    apply NoDup_app; [assumption | repeat constructor; intros [] |].
    intros a Ha [Hk|[]]. subst a. contradiction.
Qed.

Lemma map_get_set k k' v m :
  map_get k' (map_set k v m) = if String.eqb k' k then Some v else map_get k' m.
Proof.
  induction m as [|[k0 v0] m IH]; simpl.
  - reflexivity.
  - destruct (String.eqb k k0) eqn:E; simpl.
    + apply String.eqb_eq in E; subst k0.
      destruct (String.eqb k' k); reflexivity.
    + destruct (String.eqb k' k0) eqn:E'; [|exact IH].
      apply String.eqb_eq in E'; subst k0.
      now rewrite String.eqb_sym, E.
Qed.

Lemma map_get_delete k k' m :
  map_get k' (map_delete k m) = if String.eqb k' k then None else map_get k' m.
Proof.
  induction m as [|[k0 v0] m IH]; simpl.
  - now destruct (String.eqb k' k).
  - destruct (String.eqb k k0) eqn:E; simpl.
    + apply String.eqb_eq in E; subst k0. rewrite IH.
      destruct (String.eqb k' k); reflexivity.
    + destruct (String.eqb k' k0) eqn:E'; [|exact IH].
      apply String.eqb_eq in E'; subst k0.
      now rewrite String.eqb_sym, E.
Qed.

Lemma map_adjust_absent (f : V -> V) k m :
  map_get k m = None -> map_adjust f k m = m.
Proof.
  induction m as [|[k' v'] m IH]; simpl; [reflexivity|].
  destruct (String.eqb k k'); [discriminate|]. intros H. now rewrite IH.
Qed.

Lemma map_delete_absent k m :
  ~ In k (map_keys m) -> map_delete k m = m.
Proof.
  induction m as [|[k' v'] m IH]; simpl; intros H; [reflexivity|].
  destruct (String.eqb k k') eqn:E.
  - apply String.eqb_eq in E. elim H. now left.
  - f_equal. apply IH. intros H'. apply H. now right.
Qed.

Lemma map_delete_set_fresh k v m :
  ~ In k (map_keys m) -> map_delete k (map_set k v m) = m.
Proof.
  induction m as [|[k' v'] m IH]; simpl; intros H.
  - now rewrite String.eqb_refl.
  - destruct (String.eqb k k') eqn:E.
    + apply String.eqb_eq in E. elim H. now left.
    + simpl. rewrite E. f_equal. apply IH. intros H'. apply H. now right.
Qed.
End JsMapSet.

(** ** Calls that leave the window as it is *)

Lemma set_trace_same (st : State) : set_trace (trace st) st = st.
Proof. now destruct st. Qed.

(** A call that changes nothing of the window only extends the trace. *)
Lemma native_plain_run (id : WindowId) (c : NativeCall) (st : State) :
  native id c (fun w => w) st = Done tt (set_trace (trace st ++ [Call id c]) st).
Proof.
  unfold native, emit, bind, modify. simpl. rewrite map_adjust_id.
  now destruct st.
Qed.

(** ** Lookups that miss *)

(** C8: for an id that is not in the registry, [getWindow] answers null and
    the 'window:getBounds' handler returns null without raising and without
    touching the state. *)
Theorem lookup_miss_is_null (env : Env) (st : State) (id : WindowId) :
  ~ In id (map_keys (windows st)) ->
  getWindow st id = None /\ window_getBounds env id st = Done None st.
Proof.
  intros H. apply map_get_None in H.
  unfold getWindow, window_getBounds, bind, gets. now rewrite H.
Qed.

Lemma lookup_miss_is_null_witness :
  getWindow oneWindowTray "gone" = None /\
  window_getBounds win11 "gone" oneWindowTray = Done None oneWindowTray.
Proof.
  apply (lookup_miss_is_null win11 oneWindowTray "gone").
  vm_compute. intros [H|[]]. discriminate H.
Defined.

(** ** Tab transfer *)




(** ** Window creation and the stored style *)

(** The native calls of one [createWindow], up to its [await]. *)
Lemma createWindow_run (env : Env) (options : CreateOptions) (st : State) :
  exists st',
    createWindow env options st = Done (uuidv4 env (uuids st)) st' /\
    windows st' =
      map_set (uuidv4 env (uuids st)) (newBrowserWindow env options) (windows st) /\
    currentUIStyle st' = currentUIStyle st /\
    zmqBridge st' = zmqBridge st ++ [ForwardToWindows] /\
    uuids st' = S (uuids st) /\
    timers st' = timers st /\
    trace st' = trace st ++
      Constructed (uuidv4 env (uuids st)) :: Subscribed ::
      (if development env
       then [Call (uuidv4 env (uuids st)) (LoadURL "http://localhost:5173")]
       else [Call (uuidv4 env (uuids st)) (LoadFile "../renderer/index.html")]).
Proof.
  unfold createWindow, zmqBridge_onEvent, native, emit, bind, modify, gets, ret.
  destruct (development env); simpl; eexists; (split; [reflexivity|]); simpl;
    rewrite ?map_adjust_id, <- ?app_assoc; simpl; repeat split; reflexivity.
Qed.

(** The rest of [createWindow], once the load has resolved. *)
Lemma createWindow_afterLoad_run (env : Env) (id : WindowId) (st : State) :
  createWindow_afterLoad env id st =
  Done tt (set_windows (map_adjust (with_loadState Loaded) id (windows st))
             (set_trace (trace st ++
                         (if development env then [Call id OpenDevTools] else [])) st)).
Proof.
  unfold createWindow_afterLoad, bind, modify, ret.
  destruct (development env).
  - now rewrite native_plain_run.
  - now rewrite app_nil_r, set_trace_same.
Qed.

(** C3, as the code has it: [createWindow] neither reads nor writes the stored
    style.  Whatever style is stored, it registers the same window
    ([newBrowserWindow], which has no background material), makes the same
    calls - construction, subscription and page load, then the developer
    tools in development once the load has resolved; no style call and
    nothing sent to the renderer - and leaves the stored style as it was. *)
Theorem createWindow_ignores_stored_style
    (env : Env) (options : CreateOptions) (s : UIStyle) (st : State) :
  exists st',
    createWindow env options st = Done (uuidv4 env (uuids st)) st' /\
    createWindow env options (set_currentUIStyle s st)
      = Done (uuidv4 env (uuids st)) (set_currentUIStyle s st') /\
    map_get (uuidv4 env (uuids st)) (windows st') = Some (newBrowserWindow env options) /\
    backgroundMaterial (newBrowserWindow env options) = None /\
    currentUIStyle st' = currentUIStyle st /\
    trace st' = trace st ++
      Constructed (uuidv4 env (uuids st)) :: Subscribed ::
      (if development env
       then [Call (uuidv4 env (uuids st)) (LoadURL "http://localhost:5173")]
       else [Call (uuidv4 env (uuids st)) (LoadFile "../renderer/index.html")]) /\
    exists st'',
      createWindow_afterLoad env (uuidv4 env (uuids st)) st' = Done tt st'' /\
      createWindow_afterLoad env (uuidv4 env (uuids st)) (set_currentUIStyle s st')
        = Done tt (set_currentUIStyle s st'') /\
      map_get (uuidv4 env (uuids st)) (windows st'')
        = Some (with_loadState Loaded (newBrowserWindow env options)) /\
      currentUIStyle st'' = currentUIStyle st /\
      trace st'' = trace st' ++
        (if development env then [Call (uuidv4 env (uuids st)) OpenDevTools] else []).
Proof.
  destruct (createWindow_run env options st) as (st' & E & G & S1 & _ & _ & _ & T).
  exists st'. rewrite G, map_get_set_same. repeat split; try assumption.
  - revert E. unfold createWindow, zmqBridge_onEvent, native, emit, bind, modify, gets, ret.
    destruct (development env); simpl; intros E; inversion E; reflexivity.
  - rewrite !createWindow_afterLoad_run. eexists. split; [reflexivity|].
    split; [reflexivity|]. simpl.
    rewrite G, map_get_adjust, String.eqb_refl, map_get_set_same.
    repeat split. exact S1.
Qed.

(** C3 refuted as stated: on Windows 11, after one window, [setUIStyle(glass)]
    and a second [createWindow], the stored style is glass and the first
    window has the acrylic material, but the new window "wi" is the default
    one without material, and its renderer was sent nothing: there is no
    initial style signal, so none that reports glass. *)
Lemma create_after_setStyle_glass_gets_no_style :
  currentUIStyle glassThenCreate = glass /\
  option_map (@backgroundMaterial) (getWindow glassThenCreate "w") = Some (Some "acrylic") /\
  getWindow glassThenCreate "wi" = Some (newBrowserWindow win11 noOptions) /\
  option_map (@backgroundMaterial) (getWindow glassThenCreate "wi") = Some None /\
  inbox "wi" (trace glassThenCreate) = [] /\
  ~ In (Call "wi" (SetBackgroundMaterial "acrylic")) (trace glassThenCreate).
Proof.
  vm_compute. repeat split.
  intros H. repeat (destruct H as [H|H]; [discriminate H|]). exact H.
Qed.

(** ** Close requests *)

(** C4, as the code has it: a close request for a registered window whose
    [createWindow] has run to its end, so that its handlers are in place.
    If close-to-tray is on and the registry has exactly one entry, the
    default is prevented, the window is hidden and stays registered, and the
    tray callback, if one is registered, runs exactly once, finding the
    window hidden.  Otherwise the handler makes no call at all and the close
    goes through; when the window has been destroyed its entry is deleted
    and the callback, if one is registered, then runs, finding the registry
    without it. *)
Theorem close_request_decision
    (st : State) (id : WindowId) (w : BrowserWindow) :
  map_get id (windows st) = Some w ->
  loadState w = Loaded ->
  destroyed w = false ->
  exists st',
    closeRequest id st = Done tt st' /\
    map_keys (windows st') = map_keys (windows st) /\
    if closeToTrayEnabled st && Nat.eqb (map_size (windows st)) 1
    then
      map_get id (windows st') = Some (with_visible false w) /\
      trace st' = trace st ++
        Call id PreventDefault :: Call id HideWindow ::
        match onTrayVisibilityUpdate st with
        | Some cb => [TrayVisibilityUpdate cb [(id, false)]]
        | None => []
        end
    else
      map_get id (windows st') = Some (with_closing true w) /\
      trace st' = trace st /\
      exists st'',
        closedSignal id st' = Done tt st'' /\
        map_get id (windows st'') = None /\
        map_keys (windows st'') =
          filter (fun k => negb (String.eqb id k)) (map_keys (windows st)) /\
        trace st'' = trace st ++
          Closed id ::
          match onTrayVisibilityUpdate st with
          | Some cb => [TrayVisibilityUpdate cb (snapshot st'')]
          | None => []
          end /\
        ~ In id (map fst (snapshot st'')).
Proof.
  intros Hget Hl Hd.
  assert (Hlis : listening w = true) by (unfold listening; now rewrite Hl).
  unfold closeRequest, onClose, notifyTray, native, emit, bind, modify, gets, ret.
  rewrite Hget. cbv beta iota. rewrite Hd, Hlis. simpl.
  destruct (closeToTrayEnabled st && Nat.eqb (map_size (windows st)) 1) eqn:C; simpl.
  - apply andb_prop in C. destruct C as [_ C]. apply Nat.eqb_eq in C.
    destruct (onTrayVisibilityUpdate st) as [cb|] eqn:Hcb; simpl;
      (eexists; split; [reflexivity|]); simpl;
      rewrite (map_singleton _ _ Hget C); simpl; rewrite !String.eqb_refl; simpl;
      rewrite ?String.eqb_refl, <- ?app_assoc; simpl; repeat split; reflexivity.
  - eexists; split; [reflexivity|]. simpl.
    rewrite map_keys_adjust, map_get_adjust, String.eqb_refl, Hget. simpl.
    repeat split.
    unfold closedSignal, onClosed, notifyTray, emit, bind, modify, gets, ret. simpl.
    rewrite map_get_adjust, String.eqb_refl, Hget. simpl. rewrite Hd. simpl.
    unfold listening. simpl. rewrite Hl. simpl.
    assert (Hs : ~ In id (map fst (map (fun e : WindowId * BrowserWindow =>
                                          (fst e, visible (snd e)))
                     (map_delete id (map_adjust (with_closing true) id (windows st)))))).
    { rewrite map_map. simpl.
      change (map (fun x => fst x) ?l) with (map_keys l).
      rewrite map_keys_delete, filter_In, String.eqb_refl. intros [_ H]. discriminate H. }
    destruct (onTrayVisibilityUpdate st) as [cb|] eqn:Hcb; simpl;
      (eexists; split; [reflexivity|]); simpl;
      rewrite map_get_delete_same, map_keys_delete, map_keys_adjust, <- ?app_assoc;
      simpl; repeat split; exact Hs.
Qed.

Lemma close_request_decision_witness :
  exists st',
    closeRequest "w" oneWindowTrayLoaded = Done tt st' /\
    map_keys (windows st') = ["w"] /\
    map_get "w" (windows st')
      = Some (with_visible false (with_loadState Loaded (newBrowserWindow win11 noOptions))) /\
    trace st' = trace oneWindowTrayLoaded ++
      [Call "w" PreventDefault; Call "w" HideWindow; TrayVisibilityUpdate 7 [("w", false)]].
Proof.
  destruct (@close_request_decision oneWindowTrayLoaded "w"
              (with_loadState Loaded (newBrowserWindow win11 noOptions))
              eq_refl eq_refl eq_refl)
    as (st' & E & K & R).
  exists st'. exact (conj E (conj K R)).
Defined.

(** C4 refuted as stated, at two inputs, both with close-to-tray on and
    exactly one window registered.  With no tray callback registered, the
    close of the loaded window is intercepted - prevented, hidden, still
    registered - and nobody is notified.  With a callback registered but the
    page of the window still loading, the close handler is not yet in place:
    the request is not intercepted, and after the window's destruction its id
    is still registered and the callback has not run. *)
Lemma close_request_not_always_as_claimed :
  (closeToTrayEnabled oneWindowNoCallback = true /\
   map_keys (windows oneWindowNoCallback) = ["w"] /\
   let st' := exec (closeRequest "w") oneWindowNoCallback in
   skipn (length (trace oneWindowNoCallback)) (trace st')
     = [Call "w" PreventDefault; Call "w" HideWindow] /\
   map_keys (windows st') = ["w"] /\
   trayCalls (trace st') = []) /\
  (closeToTrayEnabled oneWindowTray = true /\
   onTrayVisibilityUpdate oneWindowTray = Some 7 /\
   map_keys (windows oneWindowTray) = ["w"] /\
   let st'' := run win11 [CloseRequest "w"; ClosedSignal "w"] oneWindowTray in
   skipn (length (trace oneWindowTray)) (trace st'') = [Closed "w"] /\
   map_keys (windows st'') = ["w"] /\
   trayCalls (trace st'') = []).
Proof. vm_compute. repeat split. Qed.

(** ** Style changes *)

(** One [applyWindowStyle]: it returns normally whatever the platform does. *)
Lemma applyWindowStyle_run (env : Env) (id : WindowId) (style : UIStyle) (st : State) :
  exists st',
    applyWindowStyle env id style st = Done tt st' /\
    windows st' = map_adjust (styledBy env style id) id (windows st) /\
    trace st' = trace st ++ styleCalls env style id /\
    currentUIStyle st' = currentUIStyle st.
Proof.
  unfold applyWindowStyle, styledBy, styleCalls.
  destruct (isWin32 env); simpl.
  2:{ exists st. rewrite map_adjust_id, app_nil_r. repeat split. }
  unfold tryCatch, nativeMayThrow, consoleLog, emit, bind, modify, raise, ret.
  destruct style; simpl;
    destruct (nativeThrows env id (SetBackgroundColor _)); simpl;
    try (eexists; split; [reflexivity|]; simpl;
         rewrite ?map_adjust_id; repeat split; reflexivity);
    destruct (hasSetBackgroundMaterial env); simpl;
    try destruct (nativeThrows env id (SetBackgroundMaterial _)); simpl;
    eexists; (split; [reflexivity|]); simpl;
    rewrite ?map_adjust_twice, <- ?app_assoc; repeat split; reflexivity.
Qed.

Lemma forEach_applyWindowStyle (env : Env) (style : UIStyle) (ids : list WindowId) :
  forall st, exists st',
    forEach ids (fun id => applyWindowStyle env id style) st = Done tt st' /\
    windows st' = applyAll env style ids (windows st) /\
    trace st' = trace st ++ flat_map (styleCalls env style) ids /\
    currentUIStyle st' = currentUIStyle st.
Proof.
  induction ids as [|id ids IH]; intros st; simpl.
  - exists st. rewrite app_nil_r. repeat split.
  - destruct (applyWindowStyle_run env id style st) as (st1 & E1 & W1 & T1 & S1).
    destruct (IH st1) as (st2 & E2 & W2 & T2 & S2).
    exists st2. unfold bind. rewrite E1, E2, W2, T2, S2, W1, T1, S1, app_assoc.
    repeat split.
Qed.

Lemma styledBy_idempotent (env : Env) (style : UIStyle) (id : WindowId) (w : BrowserWindow) :
  styledBy env style id (styledBy env style id w) = styledBy env style id w.
Proof.
  unfold styledBy.
  destruct (isWin32 env); simpl; [|reflexivity].
  destruct (nativeThrows env id (SetBackgroundColor _)); [reflexivity|].
  destruct (hasSetBackgroundMaterial env); [|reflexivity].
  destruct (nativeThrows env id (SetBackgroundMaterial _)); reflexivity.
Qed.

(** On Windows, when no style call throws, the window ends up with the
    background and, where the platform has it, the material of the style. *)
Lemma styledBy_when_calls_succeed
    (env : Env) (style : UIStyle) (id : WindowId) (w : BrowserWindow) :
  isWin32 env = true -> styleCallsSucceed env style id = true ->
  backgroundColor (styledBy env style id w) = styleColor style /\
  backgroundMaterial (styledBy env style id w) =
    if hasSetBackgroundMaterial env then Some (styleMaterial style)
    else backgroundMaterial w.
Proof.
  unfold styledBy, styleCallsSucceed. intros W S1. rewrite W.
  apply andb_prop in S1. destruct S1 as [S1 S2].
  apply negb_true_iff in S1, S2. rewrite S1, S2. simpl.
  destruct (hasSetBackgroundMaterial env); split; reflexivity.
Qed.

Lemma applyAll_keys (env : Env) (style : UIStyle) (ids : list WindowId) :
  forall ws, map_keys (applyAll env style ids ws) = map_keys ws.
Proof.
  induction ids as [|id ids IH]; intros ws; [reflexivity|].
  change (applyAll env style (id :: ids) ws)
    with (applyAll env style ids (map_adjust (styledBy env style id) id ws)).
  now rewrite IH, map_keys_adjust.
Qed.

Lemma applyAll_get (env : Env) (style : UIStyle) (id : WindowId) (ids : list WindowId) :
  forall ws,
    map_get id (applyAll env style ids ws) =
    if in_dec string_dec id ids
    then option_map (styledBy env style id) (map_get id ws)
    else map_get id ws.
Proof.
  induction ids as [|a ids IH]; intros ws; [reflexivity|].
  change (applyAll env style (a :: ids) ws)
    with (applyAll env style ids (map_adjust (styledBy env style a) a ws)).
  rewrite IH, map_get_adjust.
  destruct (String.eqb id a) eqn:E.
  - apply String.eqb_eq in E; subst a.
    destruct (in_dec string_dec id (id :: ids)) as [_|n]; [|elim n; now left].
    destruct (in_dec string_dec id ids); [|reflexivity].
    destruct (map_get id ws); simpl; [|reflexivity].
    now rewrite styledBy_idempotent.
  - apply String.eqb_neq in E.
    destruct (in_dec string_dec id ids) as [i|n];
      destruct (in_dec string_dec id (a :: ids)) as [i'|n']; try reflexivity.
    + elim n'. now right.
    + destruct i' as [H|H]; [congruence | contradiction].
Qed.

Lemma setUIStyle_run (env : Env) (style : UIStyle) (st : State) :
  exists st',
    window_setUIStyle env style st = Done tt st' /\
    currentUIStyle st' = style /\
    windows st' = applyAll env style (map_keys (windows st)) (windows st) /\
    trace st' = trace st ++
      StyleStored style :: flat_map (styleCalls env style) (map_keys (windows st)).
Proof.
  unfold window_setUIStyle, forEachWindow, emit, bind, modify, gets. simpl.
  match goal with
  | |- context [forEach ?ids ?b ?s] =>
      destruct (forEach_applyWindowStyle env style ids s) as (st1 & E & W & T & S1)
  end.
  rewrite E. simpl in W, T, S1.
  destruct (UIStyle_eqb (currentUIStyle st) style); unfold consoleLog, modify, ret;
    eexists; (split; [reflexivity|]); simpl;
    rewrite W, T, S1, <- app_assoc; repeat split.
Qed.

(** Applied to all its keys, a registry has every window styled once. *)
Lemma applyAll_registered (env : Env) (style : UIStyle)
    (ws : list (WindowId * BrowserWindow)) (id : WindowId) :
  map_get id (applyAll env style (map_keys ws) ws) =
  option_map (styledBy env style id) (map_get id ws).
Proof.
  rewrite applyAll_get.
  destruct (in_dec string_dec id (map_keys ws)) as [i|n]; [reflexivity|].
  apply map_get_None in n. now rewrite n.
Qed.

(** C7: ['window:setUIStyle'] always returns normally.  The stored style is
    written first ([StyleStored] heads what the handler adds to the trace),
    then [applyWindowStyle] runs on every registered window in registry
    order; a native call that throws ends the calls on that window only
    ([styleCalls], [styledBy]) and the handler still completes, with the new
    style stored and every window still registered.  Off Windows
    [applyWindowStyle] makes no call and changes nothing. *)
Theorem setUIStyle_stores_then_applies (env : Env) (style : UIStyle) (st : State) :
  exists st',
    window_setUIStyle env style st = Done tt st' /\
    currentUIStyle st' = style /\
    map_keys (windows st') = map_keys (windows st) /\
    trace st' = trace st ++
      StyleStored style :: flat_map (styleCalls env style) (map_keys (windows st)) /\
    forall id,
      map_get id (windows st') = option_map (styledBy env style id) (map_get id (windows st)).
Proof.
  destruct (setUIStyle_run env style st) as (st' & E & S1 & W & T).
  exists st'. rewrite W, applyAll_keys. repeat split; try assumption.
  intros id. apply applyAll_registered.
Qed.

(** Every style call throws: both windows are still visited, each failure is
    logged, and the handler returns with glass stored. *)
Example setUIStyle_with_failing_calls :
  exists st',
    window_setUIStyle win32Failing glass twoWindowsFailing = Done tt st' /\
    currentUIStyle st' = glass /\
    skipn (length (trace twoWindowsFailing)) (trace st') =
      [StyleStored glass;
       Call "w" (SetBackgroundColor "#00000000");
       Call "wi" (SetBackgroundColor "#00000000")] /\
    console st' =
      ["Failed to apply window style: native call failed";
       "Failed to apply window style: native call failed";
       "UI style changed from classic to glass"].
Proof. eexists. vm_compute. repeat split. Qed.

(** C10: two ['window:setUIStyle'] calls with the same style leave the stored
    style where one call leaves it, and the second call - made while that
    style is already the stored one - still stores it and runs
    [applyWindowStyle] on every registered window, exactly as the first. *)
Theorem setUIStyle_twice (env : Env) (style : UIStyle) (st : State) :
  exists st1 st2,
    window_setUIStyle env style st = Done tt st1 /\
    window_setUIStyle env style st1 = Done tt st2 /\
    currentUIStyle st1 = style /\
    currentUIStyle st2 = currentUIStyle st1 /\
    map_keys (windows st1) = map_keys (windows st) /\
    trace st1 = trace st ++
      StyleStored style :: flat_map (styleCalls env style) (map_keys (windows st)) /\
    trace st2 = trace st1 ++
      StyleStored style :: flat_map (styleCalls env style) (map_keys (windows st1)) /\
    forall id,
      map_get id (windows st2) = option_map (styledBy env style id) (map_get id (windows st1)).
Proof.
  destruct (setUIStyle_run env style st) as (st1 & E1 & S1 & W1 & T1).
  destruct (setUIStyle_run env style st1) as (st2 & E2 & S2 & W2 & T2).
  exists st1, st2. repeat split; try assumption.
  - congruence.
  - rewrite W1. apply applyAll_keys.
  - intros id. rewrite W2. apply applyAll_registered.
Qed.

(** ** The event bridge *)

Lemma forEach_send_run (m : Message) (ids : list WindowId) :
  forall st,
    forEach ids (fun id => native id (Send m) (fun w => w)) st =
    Done tt (set_trace (trace st ++ map (fun id => Call id (Send m)) ids) st).
Proof.
  induction ids as [|id ids IH]; intros st; simpl.
  - now rewrite app_nil_r, set_trace_same.
  - unfold bind. rewrite native_plain_run, IH. simpl.
    now rewrite <- app_assoc.
Qed.

Lemma runEventCallback_run (cb : EventCallback) (event : BackendEvent) (st : State) :
  runEventCallback cb event st =
  Done tt (set_trace (trace st ++ forwardRound event st) st).
Proof.
  destruct cb. unfold runEventCallback, forEachWindow, bind, gets, forwardRound.
  apply forEach_send_run.
Qed.

Lemma runEventCallbacks_run (event : BackendEvent) (cbs : list EventCallback) :
  forall st,
    runEventCallbacks cbs event st =
    Done tt (set_trace
               (trace st ++ concat (repeat (forwardRound event st) (length cbs))) st).
Proof.
  induction cbs as [|cb cbs IH]; intros st.
  - simpl. now rewrite app_nil_r, set_trace_same.
  - change (runEventCallbacks (cb :: cbs) event st)
      with (bind (runEventCallback cb event) (fun _ => runEventCallbacks cbs event) st).
    unfold bind. rewrite runEventCallback_run, IH.
    unfold forwardRound. simpl. now rewrite <- app_assoc.
Qed.

(** An event is forwarded once per callback the bridge holds. *)
Lemma zmqBridge_emit_run (event : BackendEvent) (st : State) :
  zmqBridge_emit event st =
  Done tt (set_trace
             (trace st ++ concat (repeat (forwardRound event st) (length (zmqBridge st)))) st).
Proof.
  unfold zmqBridge_emit, bind, gets. apply runEventCallbacks_run.
Qed.

Lemma received_app (id : WindowId) (t1 t2 : list Obs) :
  received id (t1 ++ t2) = received id t1 ++ received id t2.
Proof.
  unfold received, inbox, xpEvents. now rewrite !flat_map_app.
Qed.

Lemma received_cons (id : WindowId) (o : Obs) (t : list Obs) :
  received id (o :: t) = xpEvents (sentTo id o) ++ received id t.
Proof.
  change (o :: t) with ([o] ++ t). rewrite received_app. f_equal.
  unfold received, inbox. simpl. now rewrite app_nil_r.
Qed.

Lemma received_sends (id : WindowId) (event : BackendEvent) (ids : list WindowId) :
  received id (map (fun a => Call a (Send (XpEvent event))) ids) =
  repeat event (count_occ string_dec ids id).
Proof.
  induction ids as [|a ids IH]; [reflexivity|].
  simpl map. rewrite received_cons, IH. simpl.
  destruct (string_dec a id) as [e|n].
  - subst a. now rewrite String.eqb_refl.
  - destruct (String.eqb id a) eqn:E; [|reflexivity].
    apply String.eqb_eq in E. congruence.
Qed.

Lemma received_forwardRound (id : WindowId) (event : BackendEvent) (st : State) :
  In id (map_keys (windows st)) -> NoDup (map_keys (windows st)) ->
  received id (forwardRound event st) = [event].
Proof.
  intros Hin Hnd. unfold forwardRound. rewrite received_sends.
  now rewrite (proj1 (NoDup_count_occ' string_dec _) Hnd id Hin).
Qed.

Lemma received_rounds (id : WindowId) (round : list Obs) (event : BackendEvent) (n : nat) :
  received id round = [event] ->
  received id (concat (repeat round n)) = repeat event n.
Proof.
  intros H. induction n as [|n IH]; simpl; [reflexivity|].
  now rewrite received_app, H, IH.
Qed.

(** What the code does with a backend event: every registered window
    receives it once for each callback the bridge holds. *)
Lemma backend_event_fanout (event : BackendEvent) (id : WindowId) (st : State) :
  In id (map_keys (windows st)) -> NoDup (map_keys (windows st)) ->
  received id (trace (exec (zmqBridge_emit event) st)) =
  received id (trace st) ++ repeat event (length (zmqBridge st)).
Proof.
  intros Hin Hnd. unfold exec. rewrite zmqBridge_emit_run. simpl.
  rewrite received_app. f_equal.
  apply received_rounds. now apply received_forwardRound.
Qed.

(** Every [createWindow] leaves one more callback with the bridge. *)
Lemma createWindow_subscribes (env : Env) (options : CreateOptions) (st : State) :
  length (zmqBridge (exec (createWindow env options) st)) = S (length (zmqBridge st)).
Proof.
  destruct (createWindow_run env options st) as (st' & E & _ & _ & B & _).
  unfold exec. rewrite E. simpl. rewrite B, length_app. simpl. lia.
Qed.

(** C1 fails on the code: with two windows created, the bridge holds two
    forwarding callbacks, and one backend event "E1" is sent to each of the
    two registered windows twice. *)
Theorem two_windows_receive_each_event_twice :
  map_keys (windows twoWindowsOneEvent) = ["w"; "wi"] /\
  length (zmqBridge twoWindowsOneEvent) = 2 /\
  received "w" (trace twoWindowsOneEvent) = ["E1"; "E1"] /\
  received "wi" (trace twoWindowsOneEvent) = ["E1"; "E1"].
Proof. vm_compute. repeat split. Qed.

(** Arrival order is kept, and a window closed between two events gets no
    more of them; the repetition is there all the same. *)
Example three_events_two_windows :
  let st := run win11 [CreateMainWindow; CreateMainWindow; LoadResolved "wi";
                       Backend "E1"; Backend "E2";
                       CloseRequest "wi"; ClosedSignal "wi"; Backend "E3"] initial in
  received "w" (trace st) = ["E1"; "E1"; "E2"; "E2"; "E3"; "E3"] /\
  received "wi" (trace st) = ["E1"; "E1"; "E2"; "E2"].
Proof. vm_compute. split; reflexivity. Qed.

(** With a single window ever created there is one callback and one delivery. *)
Example one_window_receives_event_once :
  received "w" (trace (run win11 [CreateMainWindow; Backend "E1"; Backend "E2"] initial))
  = ["E1"; "E2"].
Proof. reflexivity. Qed.

(** ** The registry under [create] and [remove] *)

Lemma onClosed_run (id : WindowId) (st : State) :
  exists st',
    onClosed id st = Done tt st' /\
    windows st' = map_delete id (windows st) /\
    uuids st' = uuids st.
Proof.
  unfold onClosed, notifyTray, emit, bind, modify, gets, ret. simpl.
  destruct (onTrayVisibilityUpdate st); simpl; eexists; repeat split.
Qed.

Lemma removedIn_In (id : WindowId) (h : list RegistryEvent) :
  removedIn id h = true <-> In (Removed id) h.
Proof.
  unfold removedIn. rewrite existsb_exists. split.
  - intros ([a|a] & Hin & E); [discriminate|].
    apply String.eqb_eq in E. now subst a.
  - intros H. exists (Removed id). split; [assumption | apply String.eqb_refl].
Qed.

Lemma issued_from (env : Env) (ops : list RegistryOp) :
  forall n id, In id (issued (registryHistory env n ops)) ->
               exists k, n <= k /\ id = uuidv4 env k.
Proof.
  induction ops as [|[o|r] ops IH]; simpl; intros n id H.
  - contradiction.
  - destruct H as [H|H].
    + exists n. split; [lia | now subst].
    + destruct (IH _ _ H) as (k & Hk & E). exists k. split; [lia | assumption].
  - exact (IH _ _ H).
Qed.

(** With a collision-free [uuidv4], no id is issued twice. *)
Lemma issued_NoDup (env : Env) (ops : list RegistryOp) :
  uuidsDistinct env -> forall n, NoDup (issued (registryHistory env n ops)).
Proof.
  intros Hinj. induction ops as [|[o|r] ops IH]; simpl; intros n.
  - constructor.
  - constructor; [|apply IH].
    intros H. destruct (issued_from _ _ _ _ H) as (k & Hk & E).
    apply Hinj in E. lia.
  - apply IH.
Qed.

Lemma survivors_issued (h : list RegistryEvent) (id : WindowId) :
  In id (survivors h) -> In id (issued h).
Proof.
  induction h as [|[a|a] h IH]; simpl; intros H; [contradiction| |auto].
  destruct (removedIn a h); [right; auto|].
  destruct H as [H|H]; [now left | right; auto].
Qed.

Lemma survivors_NoDup (h : list RegistryEvent) :
  NoDup (issued h) -> NoDup (survivors h).
Proof.
  induction h as [|[a|a] h IH]; simpl; intros H; [constructor| |auto].
  inversion H as [|? ? Hna Hnd]; subst.
  destruct (removedIn a h); [auto|].
  constructor; [|auto]. intros Hin. apply Hna. now apply survivors_issued.
Qed.

(** [survivors] lists exactly the ids created and not removed afterwards. *)
Lemma survivors_In (h : list RegistryEvent) (id : WindowId) :
  In id (survivors h) <-> createdNotRemoved h id.
Proof.
  unfold createdNotRemoved. induction h as [|[a|a] h IH]; simpl.
  - split; [contradiction|]. intros ([|e b] & after & E & _); discriminate.
  - split.
    + intros H. destruct (removedIn a h) eqn:R.
      * apply IH in H. destruct H as (b & after & E & N).
        exists (Created a :: b), after. subst h. now split.
      * destruct H as [H|H].
        -- subst a. exists [], h. split; [reflexivity|].
           intros Hin. apply removedIn_In in Hin. congruence.
        -- apply IH in H. destruct H as (b & after & E & N).
           exists (Created a :: b), after. subst h. now split.
    + intros ([|e b] & after & E & N); simpl in E; inversion E; subst.
      * destruct (removedIn id after) eqn:R; [|now left].
        apply removedIn_In in R. contradiction.
      * assert (In id (survivors (b ++ Created id :: after))) as H
          by (apply IH; now exists b, after).
        destruct (removedIn a (b ++ Created id :: after)); [assumption | now right].
  - rewrite IH. split.
    + intros (b & after & E & N). exists (Removed a :: b), after. subst h. now split.
    + intros ([|e b] & after & E & N); simpl in E; inversion E; subst.
      now exists b, after.
Qed.

(** Where the registry stands after a run of [create] and [remove]: the
    windows it had that were not removed, then the survivors of the run. *)
Lemma applyOps_keys (env : Env) (ops : list RegistryOp) :
  uuidsDistinct env ->
  forall st,
    (forall k, uuids st <= k -> ~ In (uuidv4 env k) (map_keys (windows st))) ->
    map_keys (windows (applyOps env ops st)) =
    filter (fun id => negb (removedIn id (registryHistory env (uuids st) ops)))
           (map_keys (windows st))
    ++ survivors (registryHistory env (uuids st) ops).
Proof.
  intros Hinj. induction ops as [|[o|r] ops IH]; intros st Hfresh.
  - simpl. rewrite app_nil_r. symmetry. apply forallb_filter_id.
    apply forallb_forall. reflexivity.
  - simpl applyOps. unfold exec, applyOp, bind.
    destruct (createWindow_run env o st) as (st' & E & W & _ & _ & U & _).
    rewrite E. simpl outcome_state.
    assert (K : map_keys (windows st') = map_keys (windows st) ++ [uuidv4 env (uuids st)]).
    { rewrite W. apply map_keys_set_fresh. apply Hfresh. lia. }
    rewrite IH, U, K.
    2:{ intros k Hk Hin. rewrite K in Hin. apply in_app_or in Hin.
        destruct Hin as [Hin|[Hin|[]]].
        - apply (Hfresh k); [lia | assumption].
        - apply Hinj in Hin. lia. }
    simpl registryHistory. simpl survivors. rewrite filter_app. simpl.
    rewrite <- app_assoc. f_equal.
    destruct (removedIn (uuidv4 env (uuids st)) (registryHistory env (S (uuids st)) ops));
      reflexivity.
  - simpl applyOps. unfold exec, applyOp.
    destruct (onClosed_run r st) as (st' & E & W & U).
    rewrite E. simpl outcome_state.
    assert (K : map_keys (windows st') =
                filter (fun k => negb (String.eqb r k)) (map_keys (windows st))).
    { rewrite W. apply map_keys_delete. }
    rewrite IH, U, K.
    2:{ intros k Hk Hin. rewrite K in Hin. apply filter_In in Hin.
        apply (Hfresh k); [lia | tauto]. }
    simpl registryHistory. simpl survivors. f_equal.
    clear. generalize (map_keys (windows st)) as l.
    induction l as [|a l IHl]; [reflexivity|].
    simpl. rewrite (String.eqb_sym a r).
    destruct (String.eqb r a); simpl; [exact IHl|].
    destruct (removedIn a (registryHistory env (uuids st) ops)); simpl;
      [exact IHl | now rewrite IHl].
Qed.

(** From the start of the process the registry holds the survivors. *)
Lemma registry_is_survivors (env : Env) (ops : list RegistryOp) :
  uuidsDistinct env ->
  map_keys (windows (applyOps env ops initial)) = survivors (registryHistory env 0 ops).
Proof.
  intros Hinj. rewrite (applyOps_keys ops Hinj initial); [reflexivity|].
  intros k _ [].
Qed.

Lemma sampleUuid_distinct : uuidsDistinct win11.
Proof.
  unfold uuidsDistinct. simpl. unfold sampleUuid.
  induction i as [|i IH]; destruct j as [|j]; simpl; intros H;
    try reflexivity; try discriminate.
  f_equal. apply IH. inversion H. reflexivity.
Defined.









(** ** The main window *)

Lemma getMainWindow_first (st : State) :
  getMainWindow st =
  match windows st with
  | [] => None
  | (_, w) :: _ => Some w
  end.
Proof.
  unfold getMainWindow, map_values. now destruct (windows st) as [|[k w] rest].
Qed.

(** The first survivor was created before every other one. *)
Lemma survivors_head (h : list RegistryEvent) :
  NoDup (issued h) ->
  forall id rest, survivors h = id :: rest ->
  exists before after,
    h = before ++ Created id :: after /\
    ~ In (Removed id) after /\
    forall id', In (Created id') before -> ~ In id' (survivors h).
Proof.
  induction h as [|[a|a] h IH]; simpl; intros Hnd id rest E.
  - discriminate.
  - inversion Hnd as [|? ? Hna Hnd']; subst.
    destruct (removedIn a h) eqn:R.
    + destruct (IH Hnd' _ _ E) as (b & after & Eh & N & F).
      exists (Created a :: b), after. subst h. repeat split; [assumption|].
      intros id' [H|H].
      * inversion H; subst id'. intros Hin. apply Hna. now apply survivors_issued.
      * now apply F.
    + inversion E; subst. exists [], h. repeat split.
      * intros Hin. apply removedIn_In in Hin. congruence.
      * intros id' [].
  - destruct (IH Hnd _ _ E) as (b & after & Eh & N & F).
    exists (Removed a :: b), after. subst h. repeat split; [assumption|].
    intros id' [H|H]; [discriminate | now apply F].
Qed.

(** C9: after any sequence of [create] and [remove] (ids never repeating),
    [getMainWindow] is null when the registry is empty; otherwise it is the
    window at the head of the registry, whose id was created, not removed
    since, and such that nothing created before it is still registered. *)
Theorem getMainWindow_is_earliest_registered (env : Env) (ops : list RegistryOp) :
  uuidsDistinct env ->
  (windows (applyOps env ops initial) = [] ->
     getMainWindow (applyOps env ops initial) = None) /\
  (windows (applyOps env ops initial) <> [] ->
     exists id w rest before after,
       getMainWindow (applyOps env ops initial) = Some w /\
       windows (applyOps env ops initial) = (id, w) :: rest /\
       getWindow (applyOps env ops initial) id = Some w /\
       registryHistory env 0 ops = before ++ Created id :: after /\
       ~ In (Removed id) after /\
       forall id', In (Created id') before ->
                   ~ In id' (map_keys (windows (applyOps env ops initial)))).
Proof.
  intros Hinj. pose proof (registry_is_survivors ops Hinj) as K.
  rewrite getMainWindow_first. unfold getWindow.
  destruct (windows (applyOps env ops initial)) as [|[id w] rest] eqn:W.
  - split; [reflexivity | congruence].
  - split; [discriminate|]. intros _.
    simpl in K. symmetry in K.
    destruct (@survivors_head _ (issued_NoDup ops Hinj 0) _ _ K) as (b & after & E & N & F).
    exists id, w, rest, b, after. simpl. rewrite String.eqb_refl.
    repeat split; try assumption.
    intros id' Hc. specialize (F id' Hc). rewrite K in F. exact F.
Qed.

Lemma getMainWindow_is_earliest_registered_witness :
  uuidsDistinct win11 /\
  exists id w rest before after,
    getMainWindow (applyOps win11 sampleOps initial) = Some w /\
    windows (applyOps win11 sampleOps initial) = (id, w) :: rest /\
    getWindow (applyOps win11 sampleOps initial) id = Some w /\
    registryHistory win11 0 sampleOps = before ++ Created id :: after /\
    ~ In (Removed id) after /\
    forall id', In (Created id') before ->
                ~ In id' (map_keys (windows (applyOps win11 sampleOps initial))).
Proof.
  split; [exact sampleUuid_distinct|].
  apply (proj2 (getMainWindow_is_earliest_registered sampleOps sampleUuid_distinct)).
  vm_compute. discriminate.
Defined.

(** ** Showing and seeding wait for 'ready-to-show' *)

Section Preservation.
Variable P : State -> Prop.

Lemma preserves_ret {A} (a : A) : preserves P (ret a).
Proof. intros st H. exact H. Qed.

Lemma preserves_gets {A} (f : State -> A) : preserves P (gets f).
Proof. intros st H. exact H. Qed.

Lemma preserves_raise {A} (e : string) : preserves P (@raise A e).
Proof. intros st H. exact H. Qed.

Lemma preserves_bind {A B} (c : M A) (k : A -> M B) :
  preserves P c -> (forall a, preserves P (k a)) -> preserves P (bind c k).
Proof.
  intros Hc Hk st H. specialize (Hc st H). unfold exec, bind in *.
  destruct (c st) as [a st'|e st']; simpl in *; [apply (Hk a st' Hc) | exact Hc].
Qed.

Lemma preserves_tryCatch (body : M unit) (handler : string -> M unit) :
  preserves P body -> (forall e, preserves P (handler e)) ->
  preserves P (tryCatch body handler).
Proof.
  intros Hb Hh st H. specialize (Hb st H). unfold exec, tryCatch in *.
  destruct (body st) as [a st'|e st']; simpl in *; [exact Hb | apply (Hh e st' Hb)].
Qed.

Lemma preserves_forEach (body : WindowId -> M unit) (ids : list WindowId) :
  (forall id, preserves P (body id)) -> preserves P (forEach ids body).
Proof.
  intros Hb. induction ids as [|id ids IH]; simpl.
  - apply preserves_ret.
  - apply preserves_bind; [apply Hb | intros _; exact IH].
Qed.

Lemma preserves_forEachWindow (body : WindowId -> M unit) :
  (forall id, preserves P (body id)) -> preserves P (forEachWindow body).
Proof.
  intros Hb. apply preserves_bind; [apply preserves_gets|].
  intros ids. now apply preserves_forEach.
Qed.
End Preservation.

Lemma readyFirst_snoc (tr : list Obs) (o : Obs) :
  readyFirst tr ->
  (forall id, needsReady o = Some id -> In (ReadyToShow id) tr) ->
  readyFirst (tr ++ [o]).
Proof.
  intros Htr Ho pre x post id E Hx.
  destruct (exists_last (l := x :: post)) as (l' & z & El); [discriminate|].
  destruct post as [|y post].
  - apply app_inj_tail in E.
    destruct E as [E1 E2]. subst. now apply Ho.
  - destruct l' as [|x' l']; [destruct post; discriminate El|].
    simpl in El. inversion El as [[Ex Ey]]. subst x'.
    rewrite Ey in E. change (pre ++ x :: l' ++ [z]) with (pre ++ (x :: l') ++ [z]) in E.
    rewrite app_assoc in E. apply app_inj_tail in E. destruct E as [E1 E2].
    exact (Htr pre x l' id E1 Hx).
Qed.

(** The signal of [id] has been recorded. *)
Lemma readyInv_emit (o : Obs) (st : State) :
  readyInv st ->
  (forall id, needsReady o = Some id -> In (ReadyToShow id) (trace st)) ->
  readyInv (exec (emit o) st).
Proof.
  intros [H1 H2] Ho. split; simpl.
  - now apply readyFirst_snoc.
  - intros id tab Hin. apply in_or_app. left. exact (H2 id tab Hin).
Qed.

Lemma preserves_emit (o : Obs) : needsReady o = None -> preserves readyInv (emit o).
Proof.
  intros Hn st H. apply readyInv_emit; [assumption|]. intros id E. congruence.
Qed.

Lemma preserves_modify_frame (f : State -> State) :
  (forall st, trace (f st) = trace st) -> (forall st, timers (f st) = timers st) ->
  preserves readyInv (modify f).
Proof.
  intros Ht Hm st [H1 H2]. unfold exec, modify; simpl.
  split; [now rewrite Ht|].
  intros id tab. rewrite Ht, Hm. apply H2.
Qed.

Lemma preserves_native (id : WindowId) (c : NativeCall) (f : BrowserWindow -> BrowserWindow) :
  needsReady (Call id c) = None -> preserves readyInv (native id c f).
Proof.
  intros Hn. apply preserves_bind; [now apply preserves_emit|].
  intros _. now apply preserves_modify_frame.
Qed.

Lemma preserves_nativeMayThrow (env : Env) (id : WindowId) (c : NativeCall)
    (f : BrowserWindow -> BrowserWindow) :
  needsReady (Call id c) = None -> preserves readyInv (nativeMayThrow env id c f).
Proof.
  intros Hn. apply preserves_bind; [now apply preserves_emit|].
  intros _. destruct (nativeThrows env id c);
    [apply preserves_raise | now apply preserves_modify_frame].
Qed.

Lemma preserves_consoleLog (s : string) : preserves readyInv (consoleLog s).
Proof. now apply preserves_modify_frame. Qed.

Lemma preserves_notifyTray : preserves readyInv notifyTray.
Proof.
  apply preserves_bind; [apply preserves_gets|]. intros [cb|].
  - apply preserves_bind; [apply preserves_gets|]. intros found.
    now apply preserves_emit.
  - apply preserves_ret.
Qed.

Ltac keeps :=
  repeat first
    [ apply preserves_ret
    | apply preserves_gets
    | apply preserves_notifyTray
    | apply preserves_consoleLog
    | apply preserves_native; reflexivity
    | apply preserves_nativeMayThrow; reflexivity
    | apply preserves_emit; reflexivity
    | apply preserves_modify_frame; reflexivity
    | apply preserves_tryCatch; [|intros ?]
    | apply preserves_forEachWindow; intros ?
    | apply preserves_bind; [|intros ?]
    | match goal with
      | |- preserves _ (match ?x with _ => _ end) => destruct x
      end ].

Lemma preserves_applyWindowStyle (env : Env) (id : WindowId) (style : UIStyle) :
  preserves readyInv (applyWindowStyle env id style).
Proof. unfold applyWindowStyle. keeps. Qed.

Lemma preserves_createWindow (env : Env) (options : CreateOptions) :
  preserves readyInv (createWindow env options).
Proof. unfold createWindow, zmqBridge_onEvent. keeps. Qed.

Lemma preserves_closeRequest (id : WindowId) : preserves readyInv (closeRequest id).
Proof. unfold closeRequest, onClose. keeps. Qed.

Lemma preserves_closedSignal (id : WindowId) : preserves readyInv (closedSignal id).
Proof. unfold closedSignal, onClosed. keeps. Qed.

Lemma preserves_zmqBridge_emit (event : BackendEvent) :
  preserves readyInv (zmqBridge_emit event).
Proof.
  unfold zmqBridge_emit. apply preserves_bind; [apply preserves_gets|].
  intros cbs. induction cbs as [|cb cbs IH]; simpl.
  - apply preserves_ret.
  - apply preserves_bind; [|intros _; exact IH].
    destruct cb. unfold runEventCallback. keeps.
Qed.

Lemma readyInvAt_emit (id : WindowId) (o : Obs) :
  needsReady o = None \/ needsReady o = Some id ->
  preserves (readyInvAt id) (emit o).
Proof.
  intros Hn st [H Hr]. split.
  - apply readyInv_emit; [assumption|].
    intros id' E. destruct Hn as [Hn|Hn]; congruence.
  - simpl. apply in_or_app. now left.
Qed.

Lemma readyInvAt_modify_frame (id : WindowId) (f : State -> State) :
  (forall st, trace (f st) = trace st) -> (forall st, timers (f st) = timers st) ->
  preserves (readyInvAt id) (modify f).
Proof.
  intros Ht Hm st [H Hr]. split.
  - now apply (preserves_modify_frame f Ht Hm).
  - unfold exec, modify; simpl. now rewrite Ht.
Qed.

Lemma readyInvAt_notifyTray (id : WindowId) : preserves (readyInvAt id) notifyTray.
Proof.
  apply preserves_bind; [apply preserves_gets|]. intros [cb|].
  - apply preserves_bind; [apply preserves_gets|]. intros found.
    apply readyInvAt_emit. now left.
  - apply preserves_ret.
Qed.

Lemma readyInvAt_setTimeout (id : WindowId) (tab : TabData) :
  preserves (readyInvAt id)
            (modify (fun st => set_timers (timers st ++ [(id, tab)]) st)).
Proof.
  intros st [[H1 H2] Hr]. repeat split; simpl; try assumption.
  intros id' tab' Hin. apply in_app_or in Hin. destruct Hin as [Hin|[Hin|[]]].
  - exact (H2 id' tab' Hin).
  - inversion Hin; subst. exact Hr.
Qed.

(** The [once] handler, run after the signal was recorded. *)
Lemma readyInvAt_onReadyToShow (id : WindowId) (seed : option TabData) :
  preserves (readyInvAt id) (onReadyToShow id seed).
Proof.
  unfold onReadyToShow, showWindow, onShow, native.
  apply preserves_bind; [|intros _].
  - apply preserves_bind.
    + apply preserves_bind; [apply readyInvAt_emit; now right|].
      intros _. now apply readyInvAt_modify_frame.
    + intros _. apply preserves_bind; [apply preserves_gets|].
      intros [w|]; [|apply preserves_ret].
      destruct (listening w); [apply readyInvAt_notifyTray | apply preserves_ret].
  - destruct seed as [tab|]; [|apply preserves_ret].
    apply preserves_bind; [apply readyInvAt_emit; now left|].
    intros _. apply readyInvAt_setTimeout.
Qed.

Lemma preserves_readyToShowSignal (id : WindowId) :
  preserves readyInv (readyToShowSignal id).
Proof.
  intros st H. unfold exec, readyToShowSignal, bind, gets.
  destruct (map_get id (windows st)) as [w|]; [|exact H].
  destruct (readyPending w); [|exact H].
  change (emit (ReadyToShow id) st) with (Done tt (exec (emit (ReadyToShow id)) st)).
  cbv beta iota.
  match goal with
  | |- readyInv (outcome_state (match ?m ?s with _ => _ end)) =>
      change (m s) with (Done tt (exec m s)); cbv beta iota
  end.
  assert (R : readyInvAt id (exec (emit (ReadyToShow id)) st)).
  { split; [now apply preserves_emit|]. simpl. apply in_or_app. right. now left. }
  apply (@readyInvAt_modify_frame id
           (fun st => set_windows (map_adjust (with_readyPending false) id (windows st)) st)
           (fun _ => eq_refl) (fun _ => eq_refl)) in R.
  apply (@readyInvAt_onReadyToShow id (tabData w)) in R.
  exact (proj1 R).
Qed.

Lemma preserves_timerFires : preserves readyInv timerFires.
Proof.
  intros st [H1 H2]. unfold exec, timerFires, bind, gets.
  destruct (timers st) as [|[id tab] rest] eqn:E; [exact (conj H1 H2)|].
  unfold onTimer, native, emit, modify, bind. simpl. split; simpl.
  - apply readyFirst_snoc; [assumption|].
    intros id' En. simpl in En. inversion En; subst id'.
    apply (H2 id tab). rewrite E. now left.
  - intros id' tab' Hin. simpl in Hin. apply in_or_app. left.
    apply (H2 id' tab'). rewrite E. now right.
Qed.

Lemma preserves_handle (env : Env) (i : Input) : preserves readyInv (handle env i).
Proof.
  destruct i; simpl.
  - change (preserves readyInv (createWindow env noOptions ;;; ret tt)).
    apply preserves_bind; [apply preserves_createWindow | intros _; apply preserves_ret].
  - apply preserves_bind; [apply preserves_createWindow | intros _; apply preserves_ret].
  - unfold window_transferTab. keeps.
  - unfold window_showDropIndicator. keeps.
  - unfold window_focus. keeps.
  - unfold window_setUIStyle.
    apply preserves_bind; [apply preserves_gets | intros previous].
    apply preserves_bind; [now apply preserves_modify_frame | intros _].
    apply preserves_bind; [now apply preserves_emit | intros _].
    apply preserves_bind;
      [apply preserves_forEachWindow; intros id; apply preserves_applyWindowStyle
      | intros _].
    destruct (UIStyle_eqb previous style); keeps.
  - now apply preserves_modify_frame.
  - now apply preserves_modify_frame.
  - apply preserves_forEachWindow. intros id. apply preserves_closeRequest.
  - apply preserves_closeRequest.
  - apply preserves_closedSignal.
  - apply preserves_readyToShowSignal.
  - apply preserves_timerFires.
  - apply preserves_zmqBridge_emit.
  - unfold loadResolved, createWindow_afterLoad. keeps.
  - unfold loadRejected. keeps.
Qed.

Lemma run_readyInv (env : Env) (inputs : list Input) :
  forall st, readyInv st -> readyInv (run env inputs st).
Proof.
  induction inputs as [|i inputs IH]; intros st H; simpl; [exact H|].
  apply IH. exact (preserves_handle env i H).
Qed.

Lemma readyInv_initial : readyInv initial.
Proof.
  split.
  - intros [|x pre] o post id E; discriminate E.
  - intros id tab [].
Qed.

(** What the 'ready-to-show' signal does to a registered window whose [once]
    handler is armed: the window is shown, and a seeded tab gets its timer. *)
Lemma ready_signal_shows_then_schedules (st : State) (id : WindowId) (w : BrowserWindow) :
  map_get id (windows st) = Some w -> readyPending w = true ->
  exists st',
    readyToShowSignal id st = Done tt st' /\
    map_get id (windows st') = Some (with_visible true (with_readyPending false w)) /\
    trace st' = trace st ++
      ReadyToShow id :: Call id ShowWindow ::
      (if listening w then
         match onTrayVisibilityUpdate st with
         | Some cb => [TrayVisibilityUpdate cb (snapshot st')]
         | None => []
         end
       else []) ++
      (match tabData w with Some _ => [TimerSet id] | None => [] end) /\
    timers st' = timers st ++
      (match tabData w with Some tab => [(id, tab)] | None => [] end).
Proof.
  intros Hget Hp.
  unfold readyToShowSignal, onReadyToShow, showWindow, onShow, notifyTray, native,
    emit, bind, modify, gets, ret.
  rewrite Hget, Hp. simpl.
  rewrite !map_get_adjust, String.eqb_refl, Hget. simpl.
  change (listening (with_visible true (with_readyPending false w))) with (listening w).
  destruct (listening w); simpl;
    [destruct (onTrayVisibilityUpdate st) as [cb|]; simpl|];
    destruct (tabData w) as [tab|]; simpl;
    eexists; (split; [reflexivity|]); simpl;
    rewrite map_adjust_twice, map_get_adjust, String.eqb_refl, Hget, <- ?app_assoc;
    simpl; rewrite ?app_nil_r; repeat split; reflexivity.
Qed.

(** The timer of a seeded window delivers the tab to that window. *)
Lemma timer_delivers_seed (st : State) (id : WindowId) (tab : TabData)
    (rest : list (WindowId * TabData)) :
  timers st = (id, tab) :: rest ->
  exists st',
    timerFires st = Done tt st' /\
    timers st' = rest /\
    trace st' = trace st ++ [Call id (Send (TabInitWithData tab))].
Proof.
  intros E. unfold timerFires, onTimer, native, emit, bind, modify, gets.
  rewrite E. simpl. eexists. repeat split.
Qed.

(** C6: in every run of the process, whatever the inputs and their order,
    each [window.show()] and each delivery of a seeded tab
    ('tab:initWithData') on a window comes after that window's
    'ready-to-show' signal.  In particular [createWindow] builds the window
    with [show: false] and, seeded or not, neither shows it nor sends it the
    tab. *)
Theorem show_and_seed_wait_for_ready (env : Env) (inputs : list Input) (id : WindowId) :
  precededBy (ReadyToShow id) (Call id ShowWindow) (trace (run env inputs initial)) /\
  (forall tab,
     precededBy (ReadyToShow id) (Call id (Send (TabInitWithData tab)))
                (trace (run env inputs initial))) /\
  (forall options, visible (newBrowserWindow env options) = false) /\
  (forall options st o,
     In o (skipn (length (trace st)) (trace (exec (createWindow env options) st))) ->
     needsReady o = None).
Proof.
  pose proof (run_readyInv env inputs readyInv_initial) as [H _].
  repeat split.
  - intros pre post E. exact (H pre _ post id E eq_refl).
  - intros tab pre post E. exact (H pre _ post id E eq_refl).
  - intros options st o.
    destruct (createWindow_run env options st) as (st' & E & _ & _ & _ & _ & _ & T).
    unfold exec. rewrite E. simpl. rewrite T, skipn_app, skipn_all, Nat.sub_diag. simpl.
    destruct (development env); simpl; intros Hin;
      repeat (destruct Hin as [Hin|Hin]; [subst o; reflexivity|]); contradiction.
Qed.

(** A seeded window from creation to delivery: nothing is shown or sent
    before the signal; the signal shows the window; the timer delivers. *)
Example seeded_window_run :
  trace (run win11 [IpcCreateWithTab sampleTab 500%float 300%float; ReadyToShowSignal "w";
             TimerFires]
             initial)
  = [Constructed "w"; Subscribed; Call "w" (LoadFile "../renderer/index.html");
     ReadyToShow "w"; Call "w" ShowWindow; TimerSet "w";
     Call "w" (Send (TabInitWithData sampleTab))].
Proof. reflexivity. Qed.

(** * Further properties of the handlers *)

(** ** Invariants of the event loop *)

Lemma preserves_modify (P : State -> Prop) (f : State -> State) :
  (forall st, P st -> P (f st)) -> preserves P (modify f).
Proof. intros H st Hst. exact (H st Hst). Qed.

Lemma preserves_runEventCallbacks (P : State -> Prop) (event : BackendEvent)
    (cbs : list EventCallback) :
  (forall cb, preserves P (runEventCallback cb event)) ->
  preserves P (runEventCallbacks cbs event).
Proof.
  intros H. induction cbs as [|cb cbs IH]; simpl.
  - apply preserves_ret.
  - apply preserves_bind; [apply H | intros _; exact IH].
Qed.

Lemma preserves_run (P : State -> Prop) (env : Env) :
  (forall i, preserves P (handle env i)) ->
  forall inputs st, P st -> P (run env inputs st).
Proof.
  intros H. induction inputs as [|i inputs IH]; intros st Hst; simpl; [exact Hst|].
  apply IH. exact (H i st Hst).
Qed.

(** Handlers are sequences of state updates: a property kept by each update
    is kept by the handler.  [side] proves it for the updates. *)
Ltac frame_with extra side :=
  repeat first
    [ extra
    | apply preserves_ret
    | apply preserves_gets
    | apply preserves_raise
    | apply preserves_modify; solve [side]
    | apply preserves_tryCatch; [|intros ?]
    | apply preserves_forEachWindow; intros ?
    | apply preserves_runEventCallbacks; intros ?
    | apply preserves_bind; [|intros ?]
    | match goal with
      | |- preserves _ (runEventCallback ?cb _) =>
          destruct cb; unfold runEventCallback, native, emit
      | |- preserves _ (match ?x with _ => _ end) => destruct x
      end
    | progress unfold notifyTray ].

Ltac frame side := frame_with fail side.

Ltac open_handlers :=
  unfold handle, createMainWindow, window_createWithTab, createWindow,
    window_transferTab, window_showDropIndicator, window_focus, window_setUIStyle,
    setCloseToTrayEnabled, setTrayVisibilityCallback, closeAllWindows,
    closeRequest, closedSignal, readyToShowSignal, timerFires, zmqBridge_emit,
    runEventCallback, zmqBridge_onEvent, applyWindowStyle,
    onClose, onClosed, onReadyToShow, onTimer, showWindow, onShow,
    native, nativeMayThrow, emit, consoleLog.

(** The registry never lists an id twice. *)
Lemma preserves_NoDup_keys (env : Env) (i : Input) :
  preserves (fun st => NoDup (map_keys (windows st))) (handle env i).
Proof.
  destruct i; open_handlers;
    frame ltac:(intros st H; simpl;
                rewrite ?map_keys_adjust, ?map_keys_delete;
                first [ exact H
                      | apply map_keys_set_NoDup; exact H
                      | apply NoDup_filter; exact H ]).
Qed.

Lemma run_NoDup_keys (env : Env) (inputs : list Input) :
  NoDup (map_keys (windows (run env inputs initial))).
Proof.
  apply (@preserves_run (fun st => NoDup (map_keys (windows st))) env
           (preserves_NoDup_keys env)).
  constructor.
Qed.

(** Callbacks are added by [createWindow] and by nothing else, and nothing
    takes one away: the bridge holds one per window ever created. *)
Lemma preserves_bridge_count (env : Env) (i : Input) :
  preserves (fun st => length (zmqBridge st) = uuids st) (handle env i).
Proof.
  destruct i;
    try (open_handlers; frame ltac:(intros st H; exact H); fail).
  - intros st H. unfold exec, handle, createMainWindow, bind.
    destruct (createWindow_run env noOptions st) as (st' & E & _ & _ & B & U & _).
    rewrite E. simpl. rewrite B, U, length_app. simpl. lia.
  - intros st H. unfold exec, handle, window_createWithTab, bind.
    match goal with
    | |- context [createWindow env ?o st] =>
        destruct (createWindow_run env o st) as (st' & E & _ & _ & B & U & _)
    end.
    rewrite E. simpl. rewrite B, U, length_app. simpl. lia.
Qed.

Lemma run_bridge_count (env : Env) (inputs : list Input) :
  length (zmqBridge (run env inputs initial)) = uuids (run env inputs initial).
Proof.
  apply (@preserves_run (fun st => length (zmqBridge st) = uuids st) env
           (preserves_bridge_count env)).
  reflexivity.
Qed.

(** A sequence of backend events, from any state with a duplicate-free
    registry. *)
Lemma backend_events_fanout (env : Env) (id : WindowId) (events : list BackendEvent) :
  forall st,
    In id (map_keys (windows st)) -> NoDup (map_keys (windows st)) ->
    received id (trace (run env (map Backend events) st)) =
    received id (trace st) ++
    flat_map (fun e => repeat e (length (zmqBridge st))) events.
Proof.
  induction events as [|e events IH]; intros st Hin Hnd; simpl.
  - now rewrite app_nil_r.
  - pose proof (backend_event_fanout e id st Hin Hnd) as H1.
    unfold exec in *. rewrite zmqBridge_emit_run in *. simpl outcome_state in *.
    rewrite IH; [|exact Hin|exact Hnd]. rewrite H1. simpl.
    now rewrite <- app_assoc.
Qed.

(** X1: at any point of any run, a sequence of backend events reaches every
    registered window in the order of arrival, each event as many times as
    [createWindow] has been called so far - whether or not the windows
    created are still open. *)
Theorem events_arrive_in_order_once_per_creation
    (env : Env) (inputs : list Input) (events : list BackendEvent) (id : WindowId) :
  In id (map_keys (windows (run env inputs initial))) ->
  received id (trace (run env (map Backend events) (run env inputs initial))) =
  received id (trace (run env inputs initial)) ++
  flat_map (fun e => repeat e (uuids (run env inputs initial))) events.
Proof.
  intros Hin.
  rewrite (@backend_events_fanout env id events _ Hin (run_NoDup_keys env inputs)).
  now rewrite run_bridge_count.
Qed.

Lemma events_arrive_in_order_once_per_creation_witness :
  In "wi" (map_keys (windows (run win11
     [CreateMainWindow; CreateMainWindow; LoadResolved "w"; CloseRequest "w";
      ClosedSignal "w"] initial))) /\
  received "wi" (trace (run win11 (map Backend ["E1"; "E2"])
     (run win11 [CreateMainWindow; CreateMainWindow; LoadResolved "w"; CloseRequest "w";
      ClosedSignal "w"]
          initial))) =
  ["E1"; "E1"; "E2"; "E2"].
Proof.
  split; [now left|].
  apply (@events_arrive_in_order_once_per_creation win11
           [CreateMainWindow; CreateMainWindow; LoadResolved "w"; CloseRequest "w";
      ClosedSignal "w"]
           ["E1"; "E2"] "wi").
  now left.
Defined.

Lemma inbox_app (id : WindowId) (t1 t2 : list Obs) :
  inbox id (t1 ++ t2) = inbox id t1 ++ inbox id t2.
Proof. unfold inbox. apply flat_map_app. Qed.

Lemma inbox_sends_elsewhere (id : WindowId) (m : Message) (ids : list WindowId) :
  ~ In id ids -> inbox id (map (fun a => Call a (Send m)) ids) = [].
Proof.
  induction ids as [|a ids IH]; intros H; [reflexivity|].
  simpl. destruct (String.eqb id a) eqn:E.
  - apply String.eqb_eq in E. elim H. now left.
  - simpl. apply IH. intros H'. apply H. now right.
Qed.

(** X2: a window that is not (or no longer) in the registry is sent nothing
    when a backend event arrives, however many callbacks the bridge holds;
    the event changes nothing but the trace. *)
Theorem unregistered_window_gets_no_event
    (event : BackendEvent) (id : WindowId) (st : State) :
  ~ In id (map_keys (windows st)) ->
  exists st',
    zmqBridge_emit event st = Done tt st' /\
    inbox id (trace st') = inbox id (trace st) /\
    windows st' = windows st /\
    zmqBridge st' = zmqBridge st /\
    timers st' = timers st.
Proof.
  intros H. rewrite zmqBridge_emit_run. eexists. split; [reflexivity|]. simpl.
  repeat split. rewrite inbox_app.
  assert (R : inbox id (forwardRound event st) = [])
    by (unfold forwardRound; now apply inbox_sends_elsewhere).
  induction (length (zmqBridge st)) as [|n IH]; simpl.
  - apply app_nil_r.
  - rewrite inbox_app, R. exact IH.
Qed.

Lemma unregistered_window_gets_no_event_witness :
  exists st',
    zmqBridge_emit "E1" twoWindows = Done tt st' /\
    inbox "gone" (trace st') = inbox "gone" (trace twoWindows) /\
    windows st' = windows twoWindows /\
    zmqBridge st' = zmqBridge twoWindows /\
    timers st' = timers twoWindows.
Proof.
  apply (@unregistered_window_gets_no_event "E1" "gone" twoWindows).
  vm_compute. intros [H|[H|[]]]; discriminate H.
Defined.

(** ** The guarded channels *)

Lemma inbox_snoc_call (id target : WindowId) (c : NativeCall) (tr : list Obs) :
  inbox id (tr ++ [Call target c]) = inbox id tr ++ sentTo id (Call target c).
Proof. rewrite inbox_app. unfold inbox. simpl. now rewrite app_nil_r. Qed.

(** X3: a transfer to a registered window sends the tab to that window
    once, on 'tab:receive', and to no other window; it changes nothing of
    the registry, the timers or the bridge. *)
Theorem transferTab_hit_delivers_to_target_only
    (st : State) (target : WindowId) (w : BrowserWindow) (tab : TabData) :
  map_get target (windows st) = Some w ->
  exists st',
    window_transferTab target tab st = Done tt st' /\
    st' = set_trace (trace st ++ [Call target (Send (TabReceive tab))]) st /\
    inbox target (trace st') = inbox target (trace st) ++ [TabReceive tab] /\
    forall id, id <> target -> inbox id (trace st') = inbox id (trace st).
Proof.
  intros H. unfold window_transferTab, bind, gets. rewrite H.
  rewrite native_plain_run. eexists. split; [reflexivity|]. split; [reflexivity|].
  simpl. split.
  - rewrite inbox_snoc_call. simpl. now rewrite String.eqb_refl.
  - intros id Hne. rewrite inbox_snoc_call. simpl.
    apply String.eqb_neq in Hne. rewrite Hne. apply app_nil_r.
Qed.

Lemma transferTab_hit_delivers_to_target_only_witness :
  exists st',
    window_transferTab "wi" sampleTab twoWindows = Done tt st' /\
    st' = set_trace (trace twoWindows ++ [Call "wi" (Send (TabReceive sampleTab))]) twoWindows /\
    inbox "wi" (trace st') = inbox "wi" (trace twoWindows) ++ [TabReceive sampleTab] /\
    forall id, id <> "wi" -> inbox id (trace st') = inbox id (trace twoWindows).
Proof.
  apply (@transferTab_hit_delivers_to_target_only twoWindows "wi"
           (newBrowserWindow win11 noOptions) sampleTab).
  reflexivity.
Defined.

(** 'window:showDropIndicator' and 'window:focus' are one call on the
    target when it is registered and nothing at all when it is not; in both
    cases every part of the state other than the trace is left as it was. *)
Theorem dropIndicator_and_focus_keep_state
    (st : State) (target : WindowId) (show : bool) :
  window_showDropIndicator target show st =
    Done tt (set_trace
               (trace st ++
                match map_get target (windows st) with
                | Some _ => [Call target (Send (TabDropIndicator show))]
                | None => []
                end) st) /\
  window_focus target st =
    Done tt (set_trace
               (trace st ++
                match map_get target (windows st) with
                | Some _ => [Call target FocusWindow]
                | None => []
                end) st).
Proof.
  unfold window_showDropIndicator, window_focus, bind, gets.
  destruct (map_get target (windows st)).
  - now rewrite !native_plain_run.
  - now rewrite app_nil_r, set_trace_same.
Qed.

(** ** Who changes the registry *)

(** X4: only window creation and the 'closed' signal add or delete registry
    entries: every other input - transfers, style changes, close requests,
    [closeAllWindows], ready signals, timers, backend events - leaves the
    list of registered ids exactly as it was. *)
Theorem registry_ids_change_only_on_create_and_closed
    (env : Env) (i : Input) (st : State) :
  registryInput i = false ->
  map_keys (windows (exec (handle env i) st)) = map_keys (windows st).
Proof.
  intros Hi.
  assert (P : preserves (fun s => map_keys (windows s) = map_keys (windows st))
                        (handle env i)).
  { destruct i; try discriminate Hi; open_handlers;
      frame ltac:(intros s H; simpl; rewrite ?map_keys_adjust; exact H). }
  exact (P st eq_refl).
Qed.

Lemma registry_ids_change_only_on_create_and_closed_witness :
  registryInput CloseAllWindows = false /\
  map_keys (windows (exec (handle win11 CloseAllWindows) twoWindows)) =
  map_keys (windows twoWindows).
Proof.
  split; [reflexivity|].
  apply (@registry_ids_change_only_on_create_and_closed win11 CloseAllWindows twoWindows).
  reflexivity.
Defined.

(** ** Lookups *)

(** X5: every id that 'window:getAllIds' lists resolves: [getWindow] finds
    a window for it and 'window:getBounds' answers with its bounds, leaving
    the state untouched. *)
Theorem listed_ids_resolve (env : Env) (st : State) (id : WindowId) :
  In id (map_keys (windows st)) ->
  (exists w, getWindow st id = Some w) /\
  window_getBounds env id st = Done (Some (nativeBounds env id)) st.
Proof.
  intros H. unfold getWindow, window_getBounds, bind, gets.
  destruct (map_get id (windows st)) as [w|] eqn:E.
  - split; [now exists w | reflexivity].
  - apply map_get_None in E. contradiction.
Qed.

Lemma listed_ids_resolve_witness :
  (exists w, getWindow twoWindows "wi" = Some w) /\
  window_getBounds win11 "wi" twoWindows = Done (Some (nativeBounds win11 "wi")) twoWindows.
Proof.
  apply (@listed_ids_resolve win11 twoWindows "wi"). right. now left.
Defined.

(** ** Creating and removing *)

(** X6: after [createWindow] the returned id resolves to the new window -
    hidden, its [once] handler armed, carrying the options it was given - and
    every other id resolves to what it resolved to before.  The list of ids
    grows by the new id at its end, unless that id was already registered:
    then the list is unchanged and the older window is no longer reachable. *)
Theorem createWindow_registers_new_window
    (env : Env) (options : CreateOptions) (st : State) :
  exists st',
    createWindow env options st = Done (uuidv4 env (uuids st)) st' /\
    (forall id,
       getWindow st' id =
       if String.eqb id (uuidv4 env (uuids st))
       then Some (newBrowserWindow env options)
       else getWindow st id) /\
    visible (newBrowserWindow env options) = false /\
    readyPending (newBrowserWindow env options) = true /\
    tabData (newBrowserWindow env options) = options_tabData options /\
    map_keys (windows st') =
      if in_dec string_dec (uuidv4 env (uuids st)) (map_keys (windows st))
      then map_keys (windows st)
      else map_keys (windows st) ++ [uuidv4 env (uuids st)].
Proof.
  destruct (createWindow_run env options st) as (st' & E & W & _).
  exists st'. split; [exact E|]. unfold getWindow. rewrite W.
  repeat split.
  - intros id. apply map_get_set.
  - destruct (in_dec string_dec (uuidv4 env (uuids st)) (map_keys (windows st))).
    + now apply map_keys_set_present.
    + now apply map_keys_set_fresh.
Qed.

(** X7: creating a window under an unused id and then removing it gives
    back the registry exactly as it was, entries and order; the callback
    the creation left with the bridge stays there. *)
Theorem create_then_remove_restores_registry
    (env : Env) (options : CreateOptions) (st : State) :
  ~ In (uuidv4 env (uuids st)) (map_keys (windows st)) ->
  windows (applyOps env [OpCreate options; OpRemove (uuidv4 env (uuids st))] st)
    = windows st /\
  zmqBridge (applyOps env [OpCreate options; OpRemove (uuidv4 env (uuids st))] st)
    = zmqBridge st ++ [ForwardToWindows].
Proof.
  intros Hfresh.
  destruct (createWindow_run env options st) as (st' & E & W & _ & B & _).
  assert (E1 : exec (applyOp env (OpCreate options)) st = st')
    by (unfold exec, applyOp, bind; now rewrite E).
  cbn [applyOps]. rewrite E1.
  unfold exec, applyOp, onClosed, notifyTray, emit, bind, modify, gets, ret. simpl.
  destruct (onTrayVisibilityUpdate st'); simpl; rewrite W, B;
    (split; [now apply map_delete_set_fresh | reflexivity]).
Qed.

Lemma create_then_remove_restores_registry_witness :
  ~ In (uuidv4 win11 (uuids twoWindows)) (map_keys (windows twoWindows)) /\
  windows (applyOps win11 [OpCreate noOptions; OpRemove (uuidv4 win11 (uuids twoWindows))]
                    twoWindows) = windows twoWindows /\
  zmqBridge (applyOps win11 [OpCreate noOptions; OpRemove (uuidv4 win11 (uuids twoWindows))]
                      twoWindows) = zmqBridge twoWindows ++ [ForwardToWindows].
Proof.
  assert (H : ~ In (uuidv4 win11 (uuids twoWindows)) (map_keys (windows twoWindows))).
  { vm_compute. intros [H|[H|[]]]; discriminate H. }
  split; [exact H|].
  exact (@create_then_remove_restores_registry win11 noOptions twoWindows H).
Defined.

(** X8: the main window stays the main window while other windows come
    and go: creating a window under another id, or removing any other id,
    does not change what [getMainWindow] returns; removing the main window's
    own id makes the next registered window the main one. *)
Theorem main_window_is_stable
    (env : Env) (st : State) (main : WindowId) (w : BrowserWindow)
    (rest : list (WindowId * BrowserWindow)) :
  windows st = (main, w) :: rest ->
  (forall options,
     uuidv4 env (uuids st) <> main ->
     getMainWindow (exec (createWindow env options) st) = Some w) /\
  (forall id, id <> main -> getMainWindow (exec (onClosed id) st) = Some w) /\
  getMainWindow (exec (onClosed main) st) =
    match map_delete main rest with
    | [] => None
    | (_, w') :: _ => Some w'
    end.
Proof.
  intros W. repeat split.
  - intros options Hne.
    destruct (createWindow_run env options st) as (st' & E & W' & _).
    unfold exec. rewrite E. simpl. rewrite getMainWindow_first, W', W. simpl.
    apply String.eqb_neq in Hne. now rewrite Hne.
  - intros id Hne. destruct (onClosed_run id st) as (st' & E & W' & _).
    unfold exec. rewrite E. simpl. rewrite getMainWindow_first, W', W. simpl.
    apply String.eqb_neq in Hne. now rewrite Hne.
  - destruct (onClosed_run main st) as (st' & E & W' & _).
    unfold exec. rewrite E. simpl. rewrite getMainWindow_first, W', W. simpl.
    now rewrite String.eqb_refl.
Qed.

Lemma main_window_is_stable_witness :
  (forall options,
     uuidv4 win11 (uuids twoWindows) <> "w" ->
     getMainWindow (exec (createWindow win11 options) twoWindows)
       = Some (newBrowserWindow win11 noOptions)) /\
  (forall id, id <> "w" ->
     getMainWindow (exec (onClosed id) twoWindows) = Some (newBrowserWindow win11 noOptions)) /\
  getMainWindow (exec (onClosed "w") twoWindows) = Some (newBrowserWindow win11 noOptions).
Proof.
  exact (@main_window_is_stable win11 twoWindows "w" (newBrowserWindow win11 noOptions)
           [("wi", newBrowserWindow win11 noOptions)] eq_refl).
Defined.

(** ** A seeded window, from request to delivery *)

Lemma timerFires_run (st : State) (id : WindowId) (tab : TabData)
    (rest : list (WindowId * TabData)) :
  timers st = (id, tab) :: rest ->
  timerFires st =
  Done tt (set_trace (trace st ++ [Call id (Send (TabInitWithData tab))])
                     (set_timers rest st)).
Proof.
  intros E. unfold timerFires, onTimer, bind, gets, modify. rewrite E.
  now rewrite native_plain_run.
Qed.

(** X9: 'window:createWithTab', then the new window's 'ready-to-show', then
    the timer: started with no other timer pending, the new window ends up
    visible, placed at the drop point moved by (-100, -20) in floating-point
    arithmetic, and its renderer
    has been sent the tab exactly once, on 'tab:initWithData' and only as
    the last step; a further 'ready-to-show' or timer tick changes nothing. *)
Theorem seeded_window_receives_its_tab_once
    (env : Env) (tab : TabData) (screenX screenY : float) (st : State) :
  timers st = [] ->
  exists st2 st3 w,
    run env [IpcCreateWithTab tab screenX screenY;
             ReadyToShowSignal (uuidv4 env (uuids st))] st = st2 /\
    inbox (uuidv4 env (uuids st)) (trace st2) = inbox (uuidv4 env (uuids st)) (trace st) /\
    run env [TimerFires] st2 = st3 /\
    inbox (uuidv4 env (uuids st)) (trace st3) =
      inbox (uuidv4 env (uuids st)) (trace st) ++ [TabInitWithData tab] /\
    timers st3 = [] /\
    getWindow st3 (uuidv4 env (uuids st)) = Some w /\
    visible w = true /\
    opt_x w = Some (screenX - 100)%float /\
    opt_y w = Some (screenY - 20)%float /\
    run env [ReadyToShowSignal (uuidv4 env (uuids st)); TimerFires] st3 = st3.
Proof.
  intros Ht. set (id := uuidv4 env (uuids st)).
  set (options := {| options_x := Some (screenX - 100)%float;
                     options_y := Some (screenY - 20)%float;
                     options_tabData := Some tab |}).
  destruct (createWindow_run env options st) as (st1 & E1 & W1 & _ & _ & _ & Tm1 & Tr1).
  fold id in E1, W1, Tr1.
  assert (G1 : map_get id (windows st1) = Some (newBrowserWindow env options))
    by (rewrite W1; apply map_get_set_same).
  destruct (@ready_signal_shows_then_schedules st1 id _ G1 eq_refl)
    as (st2 & E2 & G2 & Tr2 & Tm2).
  simpl tabData in Tr2, Tm2. rewrite Tm1, Ht in Tm2. simpl in Tm2.
  pose proof (timerFires_run st2 Tm2) as E3.
  set (st3 := set_trace (trace st2 ++ [Call id (Send (TabInitWithData tab))])
                        (set_timers [] st2)) in *.
  assert (R2 : run env [IpcCreateWithTab tab screenX screenY; ReadyToShowSignal id] st = st2).
  { assert (H1 : handle env (IpcCreateWithTab tab screenX screenY) st = Done tt st1).
    { change (handle env (IpcCreateWithTab tab screenX screenY) st)
        with (bind (createWindow env options) (fun _ => ret tt) st).
      unfold bind. now rewrite E1. }
    cbn [run]. rewrite H1. cbn [outcome_state handle]. now rewrite E2. }
  assert (I2 : inbox id (trace st2) = inbox id (trace st)).
  { rewrite Tr2, Tr1, !inbox_app.
    assert (L : inbox id (Constructed id :: Subscribed ::
                  (if development env
                   then [Call id (LoadURL "http://localhost:5173")]
                   else [Call id (LoadFile "../renderer/index.html")])) = [])
      by (destruct (development env); reflexivity).
    rewrite L, app_nil_r.
    change (listening (newBrowserWindow env options)) with false.
    simpl. apply app_nil_r. }
  exists st2, st3, (with_visible true (with_readyPending false (newBrowserWindow env options))).
  split; [exact R2|]. split; [exact I2|].
  split; [cbn [run handle]; now rewrite E3|].
  split; [unfold st3; simpl; now rewrite inbox_snoc_call, I2; simpl; rewrite String.eqb_refl|].
  split; [reflexivity|].
  split; [exact G2|].
  repeat split.
  assert (E4 : readyToShowSignal id st3 = Done tt st3).
  { unfold readyToShowSignal, bind, gets.
    change (windows st3) with (windows st2). now rewrite G2. }
  assert (E5 : timerFires st3 = Done tt st3) by reflexivity.
  cbn [run handle]. rewrite E4. cbn [outcome_state]. now rewrite E5.
Qed.

Lemma seeded_window_receives_its_tab_once_witness :
  exists st2 st3 w,
    run win11 [IpcCreateWithTab sampleTab 1152921504606846976%float 300%float;
               ReadyToShowSignal "wii"] twoWindows = st2 /\
    inbox "wii" (trace st2) = [] /\
    run win11 [TimerFires] st2 = st3 /\
    inbox "wii" (trace st3) = [TabInitWithData sampleTab] /\
    timers st3 = [] /\
    getWindow st3 "wii" = Some w /\
    visible w = true /\
    opt_x w = Some 1152921504606846848%float /\
    opt_y w = Some 280%float /\
    run win11 [ReadyToShowSignal "wii"; TimerFires] st3 = st3.
Proof.
  exact (@seeded_window_receives_its_tab_once win11 sampleTab
           1152921504606846976%float 300%float twoWindows eq_refl).
Defined.

(** X10: the 'ready-to-show' handler is registered with [once]: a second
    signal for the same window, right after the first, changes nothing -
    the window is not shown again and no second timer is set. *)
Theorem ready_signal_acts_once (id : WindowId) (st : State) :
  readyToShowSignal id (exec (readyToShowSignal id) st)
  = Done tt (exec (readyToShowSignal id) st).
Proof.
  destruct (map_get id (windows st)) as [w|] eqn:G.
  - destruct (readyPending w) eqn:Rp.
    + destruct (ready_signal_shows_then_schedules st id G Rp) as (st' & E & G' & _).
      unfold exec. rewrite E. simpl.
      unfold readyToShowSignal, bind, gets. now rewrite G'.
    + assert (E : readyToShowSignal id st = Done tt st)
        by (unfold readyToShowSignal, bind, gets; now rewrite G, Rp).
      unfold exec. rewrite E. exact E.
  - assert (E : readyToShowSignal id st = Done tt st)
      by (unfold readyToShowSignal, bind, gets; now rewrite G).
    unfold exec. rewrite E. exact E.
Qed.

(** ** [closeAllWindows] *)

Lemma map_adjust_size (V : Type) (f : V -> V) (k : string) (m : list (string * V)) :
  map_size (map_adjust f k m) = map_size m.
Proof.
  unfold map_size. induction m as [|[k' v'] m IH]; simpl; [reflexivity|].
  destruct (String.eqb k k'); simpl; [reflexivity | now rewrite IH].
Qed.

Lemma set_windows_same (st : State) : set_windows (windows st) st = st.
Proof. now destruct st. Qed.

Lemma map_adjust_at (V : Type) (f g : V -> V) (k : string) (v : V)
    (m : list (string * V)) :
  map_get k m = Some v -> f v = g v -> map_adjust f k m = map_adjust g k m.
Proof.
  induction m as [|[k' v'] m IH]; simpl; [reflexivity|].
  destruct (String.eqb k k').
  - intros H E. inversion H; subst. now rewrite E.
  - intros H E. now rewrite IH.
Qed.

(** A close request that is not intercepted only marks the window. *)
Lemma closeRequest_proceeds (id : WindowId) (st : State) :
  closeToTrayEnabled st && Nat.eqb (map_size (windows st)) 1 = false ->
  closeRequest id st =
  Done tt (set_windows (map_adjust closeMark id (windows st)) st).
Proof.
  intros C. unfold closeRequest, onClose, bind, gets, modify, ret.
  destruct (map_get id (windows st)) as [w|] eqn:G.
  - destruct (destroyed w) eqn:D.
    + rewrite (@map_adjust_at _ closeMark (fun v => v) id w _ G),
        map_adjust_id, set_windows_same; [reflexivity|].
      unfold closeMark. now rewrite D.
    + rewrite (@map_adjust_at _ closeMark (with_closing true) id w _ G)
        by (unfold closeMark; now rewrite D).
      destruct (listening w); [now rewrite C | reflexivity].
  - now rewrite (map_adjust_absent _ _ _ G), set_windows_same.
Qed.

(** The same for a window whose 'close' handler is not registered yet. *)
Lemma closeRequest_without_handler (id : WindowId) (w : BrowserWindow) (st : State) :
  map_get id (windows st) = Some w ->
  negb (destroyed w) && listening w = false ->
  closeRequest id st =
  Done tt (set_windows (map_adjust closeMark id (windows st)) st).
Proof.
  intros G C. unfold closeRequest, bind, gets, modify, ret. rewrite G.
  destruct (destroyed w) eqn:D.
  - rewrite (@map_adjust_at _ closeMark (fun v => v) id w _ G),
      map_adjust_id, set_windows_same; [reflexivity|].
    unfold closeMark. now rewrite D.
  - rewrite (@map_adjust_at _ closeMark (with_closing true) id w _ G)
      by (unfold closeMark; now rewrite D).
    simpl in C. now rewrite C.
Qed.

Lemma closeMark_idempotent (w : BrowserWindow) : closeMark (closeMark w) = closeMark w.
Proof. unfold closeMark. now destruct (destroyed w) eqn:D; simpl; rewrite ?D. Qed.

Lemma fold_adjust_keys (V : Type) (f : V -> V) (ids : list string) :
  forall m : list (string * V),
    map_keys (fold_left (fun acc a => map_adjust f a acc) ids m) = map_keys m.
Proof.
  induction ids as [|a ids IH]; intros m; simpl; [reflexivity|].
  now rewrite IH, map_keys_adjust.
Qed.

Lemma fold_adjust_get (V : Type) (f : V -> V) (id : string) (ids : list string) :
  (forall v, f (f v) = f v) ->
  forall m : list (string * V),
    map_get id (fold_left (fun acc a => map_adjust f a acc) ids m) =
    if in_dec string_dec id ids then option_map f (map_get id m) else map_get id m.
Proof.
  intros Hf. induction ids as [|a ids IH]; intros m; [reflexivity|].
  cbn [fold_left]. rewrite IH, map_get_adjust.
  destruct (String.eqb id a) eqn:E.
  - apply String.eqb_eq in E; subst a.
    destruct (in_dec string_dec id (id :: ids)) as [_|n]; [|elim n; now left].
    destruct (in_dec string_dec id ids); [|reflexivity].
    destruct (map_get id m); simpl; [now rewrite Hf | reflexivity].
  - apply String.eqb_neq in E.
    destruct (in_dec string_dec id ids) as [i|n];
      destruct (in_dec string_dec id (a :: ids)) as [i'|n']; try reflexivity.
    + elim n'. now right.
    + destruct i' as [H|H]; [congruence | contradiction].
Qed.

(** A close request that is intercepted. *)
Lemma closeRequest_intercepted (id : WindowId) (w : BrowserWindow) (st : State) :
  map_get id (windows st) = Some w ->
  negb (destroyed w) && listening w = true ->
  closeToTrayEnabled st && Nat.eqb (map_size (windows st)) 1 = true ->
  exists st',
    closeRequest id st = Done tt st' /\
    windows st' = map_adjust (with_visible false) id (windows st) /\
    trace st' = trace st ++
      Call id PreventDefault :: Call id HideWindow :: trayNotice st'.
Proof.
  intros G L C. apply andb_prop in L. destruct L as [D L].
  apply negb_true_iff in D.
  unfold closeRequest, onClose, notifyTray, trayNotice, native, emit,
    bind, modify, gets, ret.
  rewrite G. cbv beta iota. rewrite D, L. cbv beta iota. rewrite C. cbv beta iota. simpl.
  destruct (onTrayVisibilityUpdate st) eqn:T; simpl;
    eexists; (split; [reflexivity|]); simpl; rewrite ?T, <- ?app_assoc;
    split; reflexivity.
Qed.

Lemma allLive_get (id : WindowId) (w : BrowserWindow)
    (m : list (WindowId * BrowserWindow)) :
  allLive m = true -> map_get id m = Some w -> destroyed w = false.
Proof.
  unfold allLive, map_values. induction m as [|[k v] m IH]; simpl; [discriminate|].
  intros A. apply andb_prop in A. destruct A as [Av Am].
  destruct (String.eqb id k).
  - intros E. inversion E; subst. now apply negb_true_iff.
  - now apply IH.
Qed.

Lemma forEach_closeRequest_proceeds (ids : list WindowId) :
  forall st,
    closeToTrayEnabled st && Nat.eqb (map_size (windows st)) 1 = false ->
    forEach ids closeRequest st =
    Done tt (set_windows
               (fold_left (fun acc a => map_adjust closeMark a acc) ids (windows st))
               st).
Proof.
  induction ids as [|a ids IH]; intros st C.
  - simpl. now rewrite set_windows_same.
  - cbn [forEach]. unfold bind. rewrite (closeRequest_proceeds a st C).
    rewrite IH; [reflexivity|]. simpl. now rewrite map_adjust_size.
Qed.

(** X11: [closeAllWindows] asks every registered window to close; here the
    registry holds no window that has been destroyed already.  With
    close-to-tray on and exactly one window registered, that window is
    hidden instead and stays registered, as for a single close request -
    provided its 'close' handler is in place, that is, its page load has
    resolved; if not, it goes on to close like any other.  In every other
    case - close-to-tray off, or two windows or more - no request is
    intercepted: nothing is prevented or hidden, no callback runs, and every
    registered window goes on to close. *)
Theorem closeAllWindows_decision (st : State) :
  allLive (windows st) = true ->
  exists st',
    closeAllWindows st = Done tt st' /\
    map_keys (windows st') = map_keys (windows st) /\
    if closeToTrayEnabled st && Nat.eqb (map_size (windows st)) 1
    then exists id w,
           windows st = [(id, w)] /\
           if listening w
           then windows st' = [(id, with_visible false w)] /\
                trace st' = trace st ++
                  Call id PreventDefault :: Call id HideWindow :: trayNotice st'
           else windows st' = [(id, with_closing true w)] /\ trace st' = trace st
    else trace st' = trace st /\
         forall id, getWindow st' id = option_map (with_closing true) (getWindow st id).
Proof.
  intros A. unfold closeAllWindows, forEachWindow, bind at 1, gets.
  destruct (closeToTrayEnabled st && Nat.eqb (map_size (windows st)) 1) eqn:C.
  - pose proof C as C'. apply andb_prop in C'. destruct C' as [_ C2].
    apply Nat.eqb_eq in C2.
    destruct (windows st) as [|[id w] [|e rest]] eqn:W; try discriminate C2.
    assert (G : map_get id (windows st) = Some w)
      by (rewrite W; simpl; now rewrite String.eqb_refl).
    assert (D : destroyed w = false) by (rewrite <- W in A; exact (allLive_get id _ A G)).
    rewrite <- W in C. cbn [map_keys map forEach fst]. unfold bind.
    destruct (listening w) eqn:L.
    + assert (L' : negb (destroyed w) && listening w = true) by now rewrite D, L.
      destruct (closeRequest_intercepted id st G L' C) as (st' & E & W' & T').
      exists st'. rewrite E.
      rewrite W in W'. simpl in W'. rewrite String.eqb_refl in W'.
      split; [reflexivity|]. split; [now rewrite W'|].
      exists id, w. rewrite L. repeat split; assumption.
    + assert (L' : negb (destroyed w) && listening w = false) by now rewrite D, L.
      rewrite (closeRequest_without_handler id st G L').
      eexists. split; [reflexivity|]. simpl. rewrite W. simpl.
      rewrite String.eqb_refl. split; [reflexivity|].
      exists id, w. rewrite L. unfold closeMark. rewrite D.
      split; [reflexivity|]. split; reflexivity.
  - rewrite (forEach_closeRequest_proceeds _ st C).
    eexists. split; [reflexivity|]. simpl. unfold getWindow. simpl.
    split; [apply fold_adjust_keys|]. split; [reflexivity|].
    intros id. rewrite fold_adjust_get by apply closeMark_idempotent.
    destruct (in_dec string_dec id (map_keys (windows st))) as [i|n].
    + destruct (map_get id (windows st)) as [w|] eqn:G; [|reflexivity].
      simpl. unfold closeMark. now rewrite (allLive_get id _ A G).
    + apply map_get_None in n. now rewrite n.
Qed.

Lemma closeAllWindows_decision_witness :
  allLive (windows oneWindowTrayLoaded) = true /\
  exists st',
    closeAllWindows oneWindowTrayLoaded = Done tt st' /\
    map_keys (windows st') = ["w"] /\
    windows st' =
      [("w", with_visible false (with_loadState Loaded (newBrowserWindow win11 noOptions)))] /\
    trace st' = trace oneWindowTrayLoaded ++
      [Call "w" PreventDefault; Call "w" HideWindow; TrayVisibilityUpdate 7 [("w", false)]].
Proof.
  split; [reflexivity|].
  destruct (@closeAllWindows_decision oneWindowTrayLoaded eq_refl)
    as (st' & E & K & R).
  exists st'. split; [exact E|]. split; [exact K|].
  change (closeToTrayEnabled oneWindowTrayLoaded
          && Nat.eqb (map_size (windows oneWindowTrayLoaded)) 1) with true in R.
  cbv beta iota in R. destruct R as (id & w & W & R).
  change (windows oneWindowTrayLoaded)
    with [("w", with_loadState Loaded (newBrowserWindow win11 noOptions))] in W.
  injection W as Ei Ew. subst id w.
  change (listening (with_loadState Loaded (newBrowserWindow win11 noOptions)))
    with true in R.
  cbv beta iota in R. destruct R as [V T].
  split; [exact V|]. rewrite T. f_equal. f_equal. f_equal.
  unfold trayNotice, snapshot. rewrite V.
  replace (onTrayVisibilityUpdate st') with (Some 7); [reflexivity|].
  revert E. vm_compute. intros E. now inversion E.
Defined.

(** ** The module-level variables *)

Lemma handle_settings (env : Env) (i : Input) (st : State) :
  currentUIStyle (exec (handle env i) st) = lastStyle [i] (currentUIStyle st) /\
  closeToTrayEnabled (exec (handle env i) st) = lastEnabled [i] (closeToTrayEnabled st) /\
  onTrayVisibilityUpdate (exec (handle env i) st)
    = lastCallback [i] (onTrayVisibilityUpdate st).
Proof.
  assert (F : forall j,
             (match j with
              | IpcSetUIStyle _ | SetCloseToTrayEnabled _ | SetTrayVisibilityCallback _ => false
              | _ => true
              end) = true ->
             preserves (fun s => currentUIStyle s = currentUIStyle st /\
                                 closeToTrayEnabled s = closeToTrayEnabled st /\
                                 onTrayVisibilityUpdate s = onTrayVisibilityUpdate st)
                       (handle env j)).
  { intros j Hj. destruct j; try discriminate Hj; open_handlers;
      frame ltac:(intros s H; exact H). }
  destruct i;
    try (match goal with
         | |- context [handle env ?j] => apply (F j eq_refl st)
         end; repeat split; fail);
    try (simpl; repeat split; fail).
  match goal with |- context [IpcSetUIStyle ?s] => rename s into style end.
  split.
  - destruct (setUIStyle_run env style st) as (st' & E & S1 & _).
    unfold exec, handle. now rewrite E.
  - assert (P : preserves (fun s => closeToTrayEnabled s = closeToTrayEnabled st /\
                                    onTrayVisibilityUpdate s = onTrayVisibilityUpdate st)
                          (handle env (IpcSetUIStyle style)))
      by (open_handlers; frame ltac:(intros s H; exact H)).
    apply (P st). split; reflexivity.
Qed.

Lemma lastStyle_cons (i : Input) (rest : list Input) (s : UIStyle) :
  lastStyle (i :: rest) s = lastStyle rest (lastStyle [i] s).
Proof. destruct i; reflexivity. Qed.

Lemma lastEnabled_cons (i : Input) (rest : list Input) (b : bool) :
  lastEnabled (i :: rest) b = lastEnabled rest (lastEnabled [i] b).
Proof. destruct i; reflexivity. Qed.

Lemma lastCallback_cons (i : Input) (rest : list Input) (cb : option TrayCallback) :
  lastCallback (i :: rest) cb = lastCallback rest (lastCallback [i] cb).
Proof. destruct i; reflexivity. Qed.

(** X12: each module-level variable has a single writer.  After any
    sequence of inputs the stored style is the argument of the last
    ['window:setUIStyle'], the close-to-tray flag that of the last
    [setCloseToTrayEnabled], the tray callback that of the last
    [setTrayVisibilityCallback] - and the value before the sequence if there
    was no such call; no other handler writes them. *)
Theorem settings_have_a_single_writer (env : Env) (inputs : list Input) :
  forall st,
    currentUIStyle (run env inputs st) = lastStyle inputs (currentUIStyle st) /\
    closeToTrayEnabled (run env inputs st) = lastEnabled inputs (closeToTrayEnabled st) /\
    onTrayVisibilityUpdate (run env inputs st)
      = lastCallback inputs (onTrayVisibilityUpdate st).
Proof.
  induction inputs as [|i inputs IH]; intros st; [repeat split|].
  cbn [run]. destruct (IH (outcome_state (handle env i st))) as (H1 & H2 & H3).
  destruct (handle_settings env i st) as (S1 & S2 & S3). unfold exec in *.
  rewrite lastStyle_cons, lastEnabled_cons, lastCallback_cons, H1, H2, H3, S1, S2, S3.
  repeat split.
Qed.

(** ** The tray callback *)

Lemma trayCalls_app (t1 t2 : list Obs) : trayCalls (t1 ++ t2) = trayCalls t1 ++ trayCalls t2.
Proof. unfold trayCalls. apply flat_map_app. Qed.

(** X13: whenever a handler runs the tray callback, it runs the one that
    was registered when the handler started: an input never invokes a
    callback that was replaced, and invokes none while none is registered. *)
Theorem tray_callback_invoked_is_the_registered_one
    (env : Env) (i : Input) (st : State) :
  Forall (fun cb => onTrayVisibilityUpdate st = Some cb)
         (trayCalls (skipn (length (trace st)) (trace (exec (handle env i) st)))).
Proof.
  set (P := fun s : State =>
              onTrayVisibilityUpdate s = onTrayVisibilityUpdate st /\
              exists d, trace s = trace st ++ d /\
                        Forall (fun cb => onTrayVisibilityUpdate st = Some cb) (trayCalls d)).
  assert (P0 : P st).
  { split; [reflexivity|]. exists []. rewrite app_nil_r. split; [reflexivity | constructor]. }
  assert (Pfin : forall s, P s ->
            Forall (fun cb => onTrayVisibilityUpdate st = Some cb)
                   (trayCalls (skipn (length (trace st)) (trace s)))).
  { intros s (_ & d & Hd & Hf).
    now rewrite Hd, skipn_app, skipn_all, Nat.sub_diag. }
  assert (N : preserves P notifyTray).
  { intros s (H1 & d & H2 & H3). unfold exec, notifyTray, bind, gets, emit, modify.
    destruct (onTrayVisibilityUpdate s) as [c|] eqn:T; simpl.
    - split; [simpl; rewrite T; exact H1|].
      exists (d ++ [TrayVisibilityUpdate c (snapshot s)]).
      split; [now rewrite H2, <- app_assoc|].
      rewrite trayCalls_app. apply Forall_app. split; [exact H3|].
      simpl. repeat constructor. congruence.
    - split; [simpl; rewrite T; exact H1|]. now exists d. }
  destruct i;
    try (apply Pfin; apply (fun H : preserves P _ => H st P0); open_handlers;
         frame_with ltac:(apply N)
           ltac:(intros s (H1 & d & H2 & H3); split; [exact H1|];
                 first [ exists d; split; [exact H2 | exact H3]
                       | eexists; split;
                         [ simpl; rewrite H2, <- app_assoc; reflexivity
                         | rewrite trayCalls_app; simpl; rewrite app_nil_r; exact H3 ] ]);
         fail).
  (* setTrayVisibilityCallback writes the variable and calls nothing *)
  simpl. rewrite skipn_all. constructor.
Qed.

(** ** More on style changes *)

(** X14: a failing window does not spoil the others.  On Windows, a
    registered window whose own style calls do not throw ends a
    ['window:setUIStyle'] with the background colour of the style and, where
    [setBackgroundMaterial] exists, its material - whatever happens to the
    calls on the other windows. *)
Theorem style_failure_is_isolated
    (env : Env) (style : UIStyle) (st : State) (id : WindowId) (w : BrowserWindow) :
  isWin32 env = true ->
  map_get id (windows st) = Some w ->
  styleCallsSucceed env style id = true ->
  exists st' w',
    window_setUIStyle env style st = Done tt st' /\
    getWindow st' id = Some w' /\
    backgroundColor w' = styleColor style /\
    backgroundMaterial w' =
      if hasSetBackgroundMaterial env then Some (styleMaterial style)
      else backgroundMaterial w.
Proof.
  intros Hw G Hs.
  destruct (setUIStyle_run env style st) as (st' & E & _ & W & _).
  exists st', (styledBy env style id w).
  split; [exact E|]. unfold getWindow.
  rewrite W, applyAll_registered, G. split; [reflexivity|].
  now apply styledBy_when_calls_succeed.
Qed.

Lemma style_failure_is_isolated_witness :
  exists st' w',
    window_setUIStyle win32FirstFails glass twoWindows = Done tt st' /\
    getWindow st' "wi" = Some w' /\
    backgroundColor w' = "#00000000" /\
    backgroundMaterial w' = Some "acrylic".
Proof.
  exact (@style_failure_is_isolated win32FirstFails glass twoWindows "wi"
           (newBrowserWindow win11 noOptions) eq_refl eq_refl eq_refl).
Defined.

Lemma applyAll_off_windows (env : Env) (style : UIStyle) (ids : list WindowId) :
  isWin32 env = false ->
  forall ws, applyAll env style ids ws = ws.
Proof.
  intros H. induction ids as [|a ids IH]; intros ws; [reflexivity|].
  change (applyAll env style (a :: ids) ws)
    with (applyAll env style ids (map_adjust (styledBy env style a) a ws)).
  rewrite IH. unfold styledBy. rewrite H. simpl. apply map_adjust_id.
Qed.

Lemma styleCalls_off_windows (env : Env) (style : UIStyle) (ids : list WindowId) :
  isWin32 env = false -> flat_map (styleCalls env style) ids = [].
Proof.
  intros H. induction ids as [|a l IH]; [reflexivity|].
  simpl. unfold styleCalls at 1. rewrite H. simpl. exact IH.
Qed.

(** X15: off Windows a style change only stores the style: no native call
    is made on any window and no window is changed. *)
Theorem setUIStyle_off_windows_only_stores
    (env : Env) (style : UIStyle) (st : State) :
  isWin32 env = false ->
  exists st',
    window_setUIStyle env style st = Done tt st' /\
    currentUIStyle st' = style /\
    windows st' = windows st /\
    trace st' = trace st ++ [StyleStored style].
Proof.
  intros H. destruct (setUIStyle_run env style st) as (st' & E & S1 & W & T).
  exists st'.
  rewrite W, T, (applyAll_off_windows env style _ H), (styleCalls_off_windows env style _ H).
  repeat split; assumption.
Qed.

Lemma setUIStyle_off_windows_only_stores_witness :
  exists st',
    window_setUIStyle linuxEnv glass twoWindows = Done tt st' /\
    currentUIStyle st' = glass /\
    windows st' = windows twoWindows /\
    trace st' = trace twoWindows ++ [StyleStored glass].
Proof.
  exact (@setUIStyle_off_windows_only_stores linuxEnv glass twoWindows eq_refl).
Defined.

Lemma styledBy_overwrites (env : Env) (s1 s2 : UIStyle) (id : WindowId) (w : BrowserWindow) :
  (forall a c, nativeThrows env a c = false) ->
  styledBy env s2 id (styledBy env s1 id w) = styledBy env s2 id w.
Proof.
  intros H. unfold styledBy. rewrite !H.
  destruct (isWin32 env); simpl; [|reflexivity].
  destruct (hasSetBackgroundMaterial env); reflexivity.
Qed.

(** X16: the last style wins.  Where no native call throws, setting one
    style and then another leaves every registered window exactly as
    setting the second style alone would: nothing of the first remains. *)
Theorem last_style_wins (env : Env) (s1 s2 : UIStyle) (st : State) :
  (forall a c, nativeThrows env a c = false) ->
  exists st1 st2 direct,
    window_setUIStyle env s1 st = Done tt st1 /\
    window_setUIStyle env s2 st1 = Done tt st2 /\
    window_setUIStyle env s2 st = Done tt direct /\
    currentUIStyle st2 = currentUIStyle direct /\
    map_keys (windows st2) = map_keys (windows direct) /\
    forall id, getWindow st2 id = getWindow direct id.
Proof.
  intros H.
  destruct (setUIStyle_run env s1 st) as (st1 & E1 & S1 & W1 & _).
  destruct (setUIStyle_run env s2 st1) as (st2 & E2 & S2 & W2 & _).
  destruct (setUIStyle_run env s2 st) as (direct & E3 & S3 & W3 & _).
  exists st1, st2, direct. repeat split; try assumption.
  - congruence.
  - now rewrite W2, W3, W1, !applyAll_keys.
  - intros id. unfold getWindow.
    rewrite W2, W3, W1, !applyAll_registered.
    destruct (map_get id (windows st)); simpl; [|reflexivity].
    now rewrite styledBy_overwrites.
Qed.

Lemma last_style_wins_witness :
  exists st1 st2 direct,
    window_setUIStyle win11 glass twoWindows = Done tt st1 /\
    window_setUIStyle win11 classic st1 = Done tt st2 /\
    window_setUIStyle win11 classic twoWindows = Done tt direct /\
    currentUIStyle st2 = currentUIStyle direct /\
    map_keys (windows st2) = map_keys (windows direct) /\
    forall id, getWindow st2 id = getWindow direct id.
Proof.
  exact (@last_style_wins win11 glass classic twoWindows (fun _ _ => eq_refl)).
Defined.

Lemma applyWindowStyle_console (env : Env) (id : WindowId) (style : UIStyle) (st : State) :
  console (exec (applyWindowStyle env id style) st) = console st ++ styleLog env style id.
Proof.
  unfold exec, applyWindowStyle, styleLog.
  destruct (isWin32 env); simpl; [|now rewrite app_nil_r].
  unfold tryCatch, nativeMayThrow, consoleLog, emit, bind, modify, raise, ret.
  destruct style; simpl;
    destruct (nativeThrows env id (SetBackgroundColor _)); simpl; try reflexivity;
    destruct (hasSetBackgroundMaterial env); simpl; rewrite ?app_nil_r; try reflexivity;
    destruct (nativeThrows env id (SetBackgroundMaterial _)); simpl;
    rewrite ?app_nil_r; reflexivity.
Qed.

Lemma forEach_applyWindowStyle_console (env : Env) (style : UIStyle) (ids : list WindowId) :
  forall st,
    console (exec (forEach ids (fun id => applyWindowStyle env id style)) st)
    = console st ++ flat_map (styleLog env style) ids.
Proof.
  induction ids as [|a ids IH]; intros st.
  - simpl. now rewrite app_nil_r.
  - pose proof (applyWindowStyle_console env a style st) as C1.
    destruct (applyWindowStyle_run env a style st) as (st1 & E1 & _).
    unfold exec in *. cbn [forEach]. unfold bind. rewrite E1 in *. simpl in C1.
    rewrite IH, C1. simpl. now rewrite app_assoc.
Qed.

(** X17: what a style change writes to the console: for every registered
    window in turn the lines of its [applyWindowStyle] - one "Failed to
    apply window style" line if a call on it threw - and, last, the "UI
    style changed" line if and only if the style differs from the one
    stored before. *)
Theorem setUIStyle_console (env : Env) (style : UIStyle) (st : State) :
  console (exec (window_setUIStyle env style) st) =
  console st ++ flat_map (styleLog env style) (map_keys (windows st))
  ++ styleChangeLog (currentUIStyle st) style.
Proof.
  unfold exec, window_setUIStyle, forEachWindow, styleChangeLog, emit, bind, modify, gets.
  simpl.
  match goal with
  | |- context [forEach ?ids ?b ?s] =>
      pose proof (forEach_applyWindowStyle_console env style ids s) as C;
      destruct (forEach_applyWindowStyle env style ids s) as (st1 & E & _)
  end.
  unfold exec in C. rewrite E in *. simpl in C.
  destruct (UIStyle_eqb (currentUIStyle st) style);
    unfold consoleLog, modify, ret; simpl; rewrite C.
  - now rewrite app_nil_r.
  - now rewrite app_assoc.
Qed.

(** ** Nothing is sent to a renderer without a request for it *)

Section JsMapIn.
Variable V : Type.
Implicit Types (m : list (string * V)) (k : string).

Lemma map_adjust_In (f : V -> V) k k' v m :
  In (k', v) (map_adjust f k m) ->
  exists v0, In (k', v0) m /\ (v = v0 \/ v = f v0).
Proof.
  induction m as [|[k0 v0] m IH]; simpl; [contradiction|].
  destruct (String.eqb k k0); simpl; intros [H|H].
  - inversion H; subst. exists v0. split; [now left | now right].
  - exists v. split; [now right | now left].
  - inversion H; subst. exists v. split; [now left | now left].
  - destruct (IH H) as (v1 & Hin & Hv). exists v1. split; [now right | exact Hv].
Qed.

Lemma map_set_In k k' v v' m :
  In (k', v') (map_set k v m) -> (k', v') = (k, v) \/ In (k', v') m.
Proof.
  induction m as [|[k0 v0] m IH]; simpl.
  - intros [H|[]]. left. now symmetry.
  - destruct (String.eqb k k0) eqn:E; simpl; intros [H|H].
    + apply String.eqb_eq in E. subst k0. left. now symmetry.
    + right. now right.
    + right. now left.
    + destruct (IH H) as [H'|H']; [now left | right; now right].
Qed.

Lemma map_delete_In k k' v m :
  In (k', v) (map_delete k m) -> In (k', v) m.
Proof.
  induction m as [|[k0 v0] m IH]; simpl; [contradiction|].
  destruct (String.eqb k k0); simpl.
  - intros H. right. now apply IH.
  - intros [H|H]; [now left | right; now apply IH].
Qed.

Lemma map_get_In k v m : map_get k m = Some v -> In (k, v) m.
Proof.
  induction m as [|[k0 v0] m IH]; simpl; [discriminate|].
  destruct (String.eqb k k0) eqn:E.
  - apply String.eqb_eq in E. intros H. inversion H; subst. now left.
  - intros H. right. now apply IH.
Qed.
End JsMapIn.

Lemma accounted_emit (inputs : list Input) (o : Obs) (st : State) :
  accounted inputs st ->
  (forall id m, o = Call id (Send m) -> sourceOf inputs id m) ->
  accounted inputs (set_trace (trace st ++ [o]) st).
Proof.
  intros (H1 & H2 & H3) Ho. repeat split; try assumption.
  intros id m Hin. simpl in Hin. apply in_app_or in Hin.
  destruct Hin as [Hin|[Hin|[]]]; [now apply H1 | now apply Ho].
Qed.

Lemma accounted_adjust (inputs : list Input) (f : BrowserWindow -> BrowserWindow)
    (k : WindowId) (st : State) :
  (forall w, tabData (f w) = tabData w) ->
  accounted inputs st ->
  accounted inputs (set_windows (map_adjust f k (windows st)) st).
Proof.
  intros Hf (H1 & H2 & H3). repeat split; try assumption.
  intros id w tab Hin Ht. simpl in Hin.
  destruct (map_adjust_In _ _ _ _ _ Hin) as (w0 & Hin0 & [E|E]); subst w.
  - exact (H2 id w0 tab Hin0 Ht).
  - rewrite Hf in Ht. exact (H2 id w0 tab Hin0 Ht).
Qed.

Lemma accounted_set (inputs : list Input) (env : Env) (options : CreateOptions)
    (k : WindowId) (st : State) :
  (forall tab, options_tabData options = Some tab -> seededIn inputs tab) ->
  accounted inputs st ->
  accounted inputs (set_windows (map_set k (newBrowserWindow env options) (windows st)) st).
Proof.
  intros Ho (H1 & H2 & H3). repeat split; try assumption.
  intros id w tab Hin Ht. simpl in Hin.
  destruct (map_set_In _ _ _ _ _ Hin) as [E|Hin0].
  - inversion E; subst. now apply Ho.
  - exact (H2 id w tab Hin0 Ht).
Qed.

Lemma accounted_delete (inputs : list Input) (k : WindowId) (st : State) :
  accounted inputs st ->
  accounted inputs (set_windows (map_delete k (windows st)) st).
Proof.
  intros (H1 & H2 & H3). repeat split; try assumption.
  intros id w tab Hin Ht. simpl in Hin.
  exact (H2 id w tab (map_delete_In _ _ _ _ Hin) Ht).
Qed.

Ltac accounted_side Hin :=
  let s := fresh "s" in
  let H := fresh "H" in
  intros s H;
  first
    [ exact H
    | apply accounted_emit;
      [ exact H
      | let a := fresh in let m := fresh in let E := fresh in
        intros a m E; inversion E; subst; first [ exact Hin | simpl; eauto ] ]
    | apply accounted_adjust; [ reflexivity | exact H ]
    | apply accounted_delete; exact H
    | apply accounted_set;
      [ let t := fresh in let E := fresh in
        intros t E; simpl in E; first [ discriminate E
                                      | inversion E; subst; red; eauto ]
      | exact H ] ].

Lemma accounted_setTimeout (inputs : list Input) (id : WindowId) (tab : TabData)
    (st : State) :
  seededIn inputs tab ->
  accounted inputs st ->
  accounted inputs (set_timers (timers st ++ [(id, tab)]) st).
Proof.
  intros Hs (H1 & H2 & H3). repeat split; try assumption.
  intros id' tab' Hin. simpl in Hin. apply in_app_or in Hin.
  destruct Hin as [Hin|[Hin|[]]]; [exact (H3 id' tab' Hin)|].
  inversion Hin; subst. exact Hs.
Qed.

(** The [once] handler with the seed of a window that is accounted for. *)
Lemma accounted_ready_branch (inputs : list Input) (id : WindowId) (seed : option TabData) :
  (forall tab, seed = Some tab -> seededIn inputs tab) ->
  preserves (accounted inputs)
    (emit (ReadyToShow id) ;;;
     modify (fun st =>
       set_windows (map_adjust (with_readyPending false) id (windows st)) st) ;;;
     onReadyToShow id seed).
Proof.
  intros Hs. unfold onReadyToShow, showWindow, onShow, native, emit.
  frame ltac:(first
    [ accounted_side I
    | let s := fresh in let H := fresh in
      intros s H; apply accounted_setTimeout; [apply Hs; reflexivity | exact H] ]).
Qed.

Lemma preserves_accounted (env : Env) (inputs : list Input) (i : Input) :
  In i inputs -> preserves (accounted inputs) (handle env i).
Proof.
  intros Hin. destruct i;
    try (open_handlers; frame ltac:(accounted_side Hin); fail).
  - (* 'ready-to-show': the timer carries the seed of the window *)
    intros st HA. unfold exec, handle, readyToShowSignal. unfold bind at 1. unfold gets.
    destruct (map_get id (windows st)) as [w|] eqn:G; [|exact HA].
    destruct (readyPending w); [|exact HA].
    apply (@accounted_ready_branch inputs id (tabData w)); [|exact HA].
    intros tab Ht. destruct HA as (_ & H2 & _).
    exact (H2 id w tab (map_get_In _ _ G) Ht).
  - (* the timer: its tab was a seed *)
    intros st HA. unfold exec, handle.
    destruct (timers st) as [|[id tab] rest] eqn:T.
    + unfold timerFires, bind, gets. rewrite T. exact HA.
    + rewrite (timerFires_run st T). simpl.
      destruct HA as (H1 & H2 & H3).
      apply (@accounted_emit inputs (Call id (Send (TabInitWithData tab)))
               (set_timers rest st)).
      * repeat split; try assumption.
        intros id' tab' Hin'. simpl in Hin'. apply (H3 id' tab'). rewrite T. now right.
      * intros a m E. inversion E; subst. simpl. apply (H3 a tab). rewrite T. now left.
Qed.

(** X18: nothing is sent to a renderer without a request for it.  In every
    run, a 'tab:receive' on a window answers a 'window:transferTab' naming
    that window and that tab, a 'tab:dropIndicator' a
    'window:showDropIndicator' for that window and flag, a 'tab:initWithData'
    carries a tab given to some 'window:createWithTab', and an 'xp:event'
    carries an event the backend emitted, unchanged. *)
Theorem renderer_messages_have_a_source
    (env : Env) (inputs : list Input) (id : WindowId) (m : Message) :
  In (Call id (Send m)) (trace (run env inputs initial)) ->
  sourceOf inputs id m.
Proof.
  assert (R : forall l st, (forall i, In i l -> In i inputs) ->
                           accounted inputs st -> accounted inputs (run env l st)).
  { induction l as [|i l IH]; intros st Hl HA; [exact HA|].
    cbn [run]. apply IH; [intros j Hj; apply Hl; now right|].
    apply (@preserves_accounted env inputs i); [apply Hl; now left | exact HA]. }
  assert (A0 : accounted inputs initial).
  { repeat split; intros; simpl in *; contradiction. }
  destruct (R inputs initial (fun i H => H) A0) as (H1 & _).
  apply H1.
Qed.

Lemma renderer_messages_have_a_source_witness :
  In (Call "w" (Send (XpEvent "E1")))
     (trace (run win11 [CreateMainWindow; Backend "E1"] initial)) /\
  sourceOf [CreateMainWindow; Backend "E1"] "w" (XpEvent "E1").
Proof.
  assert (H : In (Call "w" (Send (XpEvent "E1")))
                 (trace (run win11 [CreateMainWindow; Backend "E1"] initial)))
    by (vm_compute; do 3 right; now left).
  split; [exact H|].
  exact (@renderer_messages_have_a_source win11
           [CreateMainWindow; Backend "E1"] "w" (XpEvent "E1") H).
Defined.
